(** * Bearer-token authentication and RBAC gate ([auth/auth.py])

    A shallow embedding of the module: header extraction, key resolution
    against the identity provider's JWKS document, token verification with
    its error mapping, the permission check and the [requires_auth]
    decorator, followed by the properties proved about them.

    Conventions.
    - Python values obtained from JSON decoding are modelled by [json];
      a Python [dict] is an association list in insertion order whose
      first binding for a key is the live one. Numbers are integers: the
      module never computes with them.
    - A Python [str] is a [string]; header values reach the module decoded
      as Latin-1, so every character is a code point below 256.
    - Code that can raise returns an [outcome]; code that also talks to the
      network runs in the monad [M], which reads a [world] and records the
      requests it sends.
    - [json.loads], [jwt.get_unverified_header] and [jwt.decode] belong to
      the Python standard library and to python-jose; they are parameters
      of the development, gathered in [pylib]. *)

From Stdlib Require Import List String Ascii ZArith Bool Arith Lia.
Import ListNotations.
Local Open Scope string_scope.
Local Open Scope list_scope.

(** ** Configuration (module-level constants) *)

Definition AUTH0_DOMAIN : string := "dev-eid5kfny.us.auth0.com".
Definition ALGORITHMS : list string := ["RS256"].
Definition API_AUDIENCE : string := "stock".

(** ** Exceptions and outcomes *)

(** The [error] dictionary carried by an [AuthError]. *)
Record auth_error := { code : string; description : string }.

Inductive exn :=
| AuthError (error : auth_error) (status_code : Z)
| ExpiredSignatureError
| JWTClaimsError
| JWTError
| KeyError (key : string)
| IndexError
| TypeError
| URLError
| JSONDecodeError
| OtherError (name : string).

(** The classes named by the [except] clauses of the module. In python-jose
    [ExpiredSignatureError] and [JWTClaimsError] are unrelated subclasses of
    [JWTError]; every exception of [exn] is an [Exception]. *)
Inductive exc_class := ExpiredSignatureError_cls | JWTClaimsError_cls | Exception_cls.

Definition isinstance (e : exn) (c : exc_class) : bool :=
  match c, e with
  | ExpiredSignatureError_cls, ExpiredSignatureError => true
  | JWTClaimsError_cls, JWTClaimsError => true
  | Exception_cls, _ => true
  | _, _ => false
  end.

Inductive outcome (A : Type) : Type :=
| Ret (a : A)
| Raise (e : exn).
Arguments Ret {A} a.
Arguments Raise {A} e.

Definition obind {A B} (o : outcome A) (k : A -> outcome B) : outcome B :=
  match o with
  | Ret a => k a
  | Raise e => Raise e
  end.

Declare Scope outcome_scope.
Delimit Scope outcome_scope with outcome.
Notation "x <~ c ; k" := (obind c (fun x => k))
  (at level 61, c at next level, right associativity) : outcome_scope.

(** [try: body except c1: h1 except c2: h2 ...]: the first clause whose
    class the exception is an instance of handles it. *)
Fixpoint try_except {A} (handlers : list (exc_class * outcome A)) (e : exn) : outcome A :=
  match handlers with
  | [] => Raise e
  | (c, h) :: rest => if isinstance e c then h else try_except rest e
  end.

Definition try_ {A} (body : outcome A) (handlers : list (exc_class * outcome A)) : outcome A :=
  match body with
  | Ret a => Ret a
  | Raise e => try_except handlers e
  end.

(** ** Decoded JSON values and the Python operations used on them *)

#[local] Set Warnings "-register-all".
Inductive json :=
| JNull
| JBool (b : bool)
| JNum (n : Z)
| JStr (s : string)
| JArr (items : list json)
| JObj (members : list (string * json)).

Definition dict := list (string * json).

Fixpoint dict_get {A} (d : list (string * A)) (k : string) : option A :=
  match d with
  | [] => None
  | (k', v) :: d' => if (k' =? k)%string then Some v else dict_get d' k
  end.

(** [k in d] for a dict [d]. *)
Definition dict_mem {A} (k : string) (d : list (string * A)) : bool :=
  match dict_get d k with Some _ => true | None => false end.

(** [d[k]] for a dict [d]. *)
Definition dict_getitem (d : dict) (k : string) : outcome json :=
  match dict_get d k with
  | Some v => Ret v
  | None => Raise (KeyError k)
  end.

(** [a == b] on decoded JSON values: booleans compare as the integers 0 and
    1, lists element by element, dicts as mappings. *)
Fixpoint py_eq (a b : json) {struct a} : bool :=
  match a, b with
  | JNull, JNull => true
  | JBool x, JBool y => Bool.eqb x y
  | JBool x, JNum n => (Z.b2z x =? n)%Z
  | JNum n, JBool y => (n =? Z.b2z y)%Z
  | JNum n, JNum m => (n =? m)%Z
  | JStr s, JStr t => (s =? t)%string
  | JArr xs, JArr ys =>
      (fix go (xs ys : list json) {struct xs} : bool :=
         match xs, ys with
         | [], [] => true
         | x :: xs', y :: ys' => py_eq x y && go xs' ys'
         | _, _ => false
         end) xs ys
  | JObj ms, JObj ns =>
      (List.length ms =? List.length ns)%nat &&
      (fix all (ms : list (string * json)) : bool :=
         match ms with
         | [] => true
         | (k, v) :: ms' =>
             match dict_get ns k with
             | Some w => py_eq v w
             | None => false
             end && all ms'
         end) ms
  | _, _ => false
  end.

(** [v[k]] with a string subscript [k]: only a dict accepts it. *)
Definition py_getitem (v : json) (k : string) : outcome json :=
  match v with
  | JObj d => dict_getitem d k
  | _ => Raise TypeError
  end.

Fixpoint chars (s : string) : list json :=
  match s with
  | EmptyString => []
  | String c s' => JStr (String c EmptyString) :: chars s'
  end.

(** The sequence a [for] loop walks: the items of a list, the keys of a
    dict, the characters of a string; other values are not iterable. *)
Definition py_iter (v : json) : outcome (list json) :=
  match v with
  | JArr items => Ret items
  | JObj d => Ret (map (fun kv => JStr (fst kv)) d)
  | JStr s => Ret (chars s)
  | _ => Raise TypeError
  end.

Fixpoint str_contains (needle hay : string) : bool :=
  String.prefix needle hay ||
  match hay with
  | EmptyString => false
  | String _ hay' => str_contains needle hay'
  end.

(** [s in v] for a string [s]: membership in a list, substring of a string,
    key of a dict; other values raise [TypeError]. *)
Definition py_in (s : string) (v : json) : outcome bool :=
  match v with
  | JArr items => Ret (existsb (py_eq (JStr s)) items)
  | JStr t => Ret (str_contains s t)
  | JObj d => Ret (dict_mem s d)
  | _ => Raise TypeError
  end.

(** ** Strings: [str.split(' ')] and [str.lower()] *)

(** [s.split(sep)] for a one-character separator: cuts at every occurrence
    and keeps empty pieces; the result is never empty. *)
Fixpoint split (sep : ascii) (s : string) : list string :=
  match s with
  | EmptyString => [EmptyString]
  | String c s' =>
      if Ascii.eqb c sep then EmptyString :: split sep s'
      else match split sep s' with
           | [] => [String c EmptyString]
           | p :: ps => String c p :: ps
           end
  end.

(** [str.lower()] on one code point below 256: A-Z and the Latin-1 capitals
    (U+00C0-U+00DE except the multiplication sign U+00D7) move up by 32. *)
Definition lower_char (c : ascii) : ascii :=
  let n := nat_of_ascii c in
  if ((65 <=? n) && (n <=? 90) ||
      (192 <=? n) && (n <=? 222) && negb (n =? 215))%nat
  then ascii_of_nat (n + 32)
  else c.

Fixpoint lower (s : string) : string :=
  match s with
  | EmptyString => EmptyString
  | String c s' => String (lower_char c) (lower s')
  end.

(** [l[i]] on a list. *)
Definition list_getitem {A} (l : list A) (i : nat) : outcome A :=
  match nth_error l i with
  | Some x => Ret x
  | None => Raise IndexError
  end.

(** ** Auth header *)

(** The part of flask's [request] the module reads:
    [request.headers.get("Authorization", None)]. *)
Record request := { Authorization : option string }.

Definition invalid_header (d : string) : exn :=
  AuthError {| code := "invalid_header"; description := d |} 401.

(** [not header]: [None] or the empty string. *)
Definition falsy_header (header : option string) : bool :=
  match header with
  | None => true
  | Some s => (s =? "")%string
  end.

Definition get_token_auth_header (req : request) : outcome string :=
  let header := Authorization req in
  if falsy_header header then
    Raise (invalid_header "Authorization header is missing.")
  else
    let header_split := split " " (match header with Some h => h | None => "" end) in
    (first <~ list_getitem header_split 0;
     if negb (lower first =? "bearer")%string || negb (List.length header_split =? 2)%nat then
       Raise (invalid_header "Authorization header is malformed.")
     else
       list_getitem header_split 1)%outcome.

(** ** Permission check *)

Definition invalid_permission : exn :=
  AuthError {| code := "invalid_permission";
               description := "Permissions not included in payload" |} 400.

Definition unauthorized_permission : exn :=
  AuthError {| code := "unauthorized_permission";
               description := " Permission string not in the payload permissions array" |} 401.

Definition check_permissions (permission : string) (payload : dict) : outcome bool :=
  if negb (dict_mem "permissions" payload) then
    Raise invalid_permission
  else
    (permissions <~ dict_getitem payload "permissions";
     found <~ py_in permission permissions;
     if negb found then
       Raise unauthorized_permission
     else
       Ret true)%outcome.

(** ** The outside world and the monad of effects *)

(** What a call observes outside the module: flask's current [request],
    the answer of the network to [urlopen(url).read()] (the body, or the
    exception of a failed transfer) and the clock read by [jwt.decode]. *)
Record world := {
  current_request : request;
  urlopen : string -> outcome string;
  now : Z
}.

(** [urlopen] called with a URL and no data sends one GET; [Effect] stands
    for whatever a protected operation does when it runs. *)
Inductive event :=
| HttpGet (url : string)
| Effect (label : string).

Definition M (A : Type) : Type := world -> list event * outcome A.

Definition ret {A} (a : A) : M A := fun _ => ([], Ret a).
Definition raise {A} (e : exn) : M A := fun _ => ([], Raise e).
Definition lift {A} (o : outcome A) : M A := fun _ => ([], o).

Definition bind {A B} (m : M A) (k : A -> M B) : M B :=
  fun w =>
    match m w with
    | (t, Ret a) => let (t', r) := k a w in (t ++ t', r)
    | (t, Raise e) => (t, Raise e)
    end.

Definition ask_request : M request := fun w => ([], Ret (current_request w)).
Definition ask_clock : M Z := fun w => ([], Ret (now w)).
Definition http_get (url : string) : M string := fun w => ([HttpGet url], urlopen w url).

Declare Scope M_scope.
Delimit Scope M_scope with M.
Notation "x <- c ;; k" := (bind c (fun x => k))
  (at level 61, c at next level, right associativity) : M_scope.

Definition events {A} (r : list event * outcome A) : list event := fst r.
Definition result {A} (r : list event * outcome A) : outcome A := snd r.

(** The library calls of the module. [jwt_decode] receives the clock value
    it would read, then the arguments of
    [jwt.decode(token, key, algorithms=, audience=, issuer=)]. *)
Record pylib := {
  json_loads : string -> outcome json;
  jwt_get_unverified_header : string -> outcome dict;
  jwt_decode : Z -> string -> dict -> list string -> string -> string -> outcome dict
}.

(** ** Key resolution and token verification *)

Definition jwks_url : string := "http://" ++ AUTH0_DOMAIN ++ "/.well-known/jwks.json".
Definition issuer : string := "https://" ++ AUTH0_DOMAIN ++ "/".

(** [not rsa] for a dict. *)
Definition dict_is_empty (d : dict) : bool :=
  match d with
  | [] => true
  | _ :: _ => false
  end.

(** The [for key in jwks['keys']] loop of [get_rsa], [rsa] being the value
    of the variable when the loop is entered; [break] ends the walk. *)
Fixpoint get_rsa_loop (unverified_header : dict) (keys : list json) (rsa : dict)
  : outcome dict :=
  match keys with
  | [] => Ret rsa
  | key :: rest =>
      (kid <~ py_getitem key "kid";
       wanted <~ dict_getitem unverified_header "kid";
       if py_eq kid wanted then
         kty <~ py_getitem key "kty";
         kid' <~ py_getitem key "kid";
         use <~ py_getitem key "use";
         n <~ py_getitem key "n";
         e <~ py_getitem key "e";
         Ret [("kty", kty); ("kid", kid'); ("use", use); ("n", n); ("e", e)]
       else
         get_rsa_loop unverified_header rest rsa)%outcome
  end.

Section Auth.

Variable lib : pylib.

Definition get_rsa (token : string) : M dict :=
  (body <- http_get jwks_url;;
   jwks <- lift (json_loads lib body);;
   unverified_header <- lift (jwt_get_unverified_header lib token);;
   if negb (dict_mem "kid" unverified_header) then
     raise (invalid_header "key id missing in token header")
   else
     keys <- lift (py_getitem jwks "keys");;
     items <- lift (py_iter keys);;
     rsa <- lift (get_rsa_loop unverified_header items []);;
     if dict_is_empty rsa then
       raise (invalid_header "Token header is malformed.")
     else
       ret rsa)%M.

Definition token_expired : exn :=
  AuthError {| code := "token_expired"; description := "Token expired." |} 401.
Definition invalid_claims : exn :=
  AuthError {| code := "invalid_claims";
               description := "Incorrect claims. Please, check the audience and issuer." |} 401.
Definition invalid_token : exn :=
  AuthError {| code := "invalid_token";
               description := "Unable to decode authentication token." |} 400.

(** The [try] statement of [verify_decode_jwt], run at clock value [t]
    with the key [rsa]. *)
Definition decode_or_fail (t : Z) (token : string) (rsa : dict) : outcome dict :=
  try_ (payload <~ jwt_decode lib t token rsa ALGORITHMS API_AUDIENCE issuer;
        Ret payload)%outcome
       [ (ExpiredSignatureError_cls, Raise token_expired);
         (JWTClaimsError_cls, Raise invalid_claims);
         (Exception_cls, Raise invalid_token) ].

Definition verify_decode_jwt (token : string) : M dict :=
  (rsa <- get_rsa token;;
   t <- ask_clock;;
   lift (decode_or_fail t token rsa))%M.

(** ** The decorator *)

Definition permission_default : string := "".

(** The value of the parameter [permission=''] for a call: [None] stands
    for a call that leaves the argument out. *)
Definition permission_or_default (permission : option string) : string :=
  match permission with
  | Some p => p
  | None => permission_default
  end.

(** [requires_auth(permission)(f)], [args] standing for the
    [*args, **kwargs] handed on to [f]. *)
Definition requires_auth {Args R : Type} (permission : option string)
    (f : dict -> Args -> M R) : Args -> M R :=
  let permission := permission_or_default permission in
  fun args =>
    (req <- ask_request;;
     token <- lift (get_token_auth_header req);;
     payload <- verify_decode_jwt token;;
     _ <- lift (check_permissions permission payload);;
     f payload args)%M.

End Auth.

(** ** Vocabulary of the statements *)

(** The shape a request must have for extraction to yield [token], for a
    given way [parts] of cutting the header into parts. *)
Definition bearer_shape (parts : string -> list string) (req : request)
    (token : string) : Prop :=
  exists header scheme,
    Authorization req = Some header /\
    parts header = [scheme; token] /\
    lower scheme = "bearer".

Definition extraction_contract (parts : string -> list string) (req : request) : Prop :=
  (forall token, get_token_auth_header req = Ret token <-> bearer_shape parts req token) /\
  ((forall token, ~ bearer_shape parts req token) ->
   exists d, get_token_auth_header req = Raise (invalid_header d)).

(** Parts separated by whitespace, in the sense of [str.split()] without
    argument: runs of blanks separate, and no part is empty. This is the
    reading of the specification, not what the module computes. *)
Definition is_whitespace (c : ascii) : bool :=
  let n := nat_of_ascii c in
  ((n =? 32) || (9 <=? n) && (n <=? 13))%nat.

Fixpoint whitespace_parts (s : string) : list string :=
  match s with
  | EmptyString => []
  | String c s' =>
      if is_whitespace c then whitespace_parts s'
      else
        match s' with
        | EmptyString => [String c EmptyString]
        | String c' _ =>
            if is_whitespace c' then String c EmptyString :: whitespace_parts s'
            else match whitespace_parts s' with
                 | [] => [String c EmptyString]
                 | p :: ps => String c p :: ps
                 end
        end
  end.

(** An entry of the key set matches the key identifier [wanted]. *)
Definition key_matches (wanted : json) (key : json) : bool :=
  match py_getitem key "kid" with
  | Ret kid => py_eq kid wanted
  | Raise _ => false
  end.

(** The five members of a signing key. *)
Definition jwk_members : list string := ["kty"; "kid"; "use"; "n"; "e"].

Definition has_jwk_members (key : json) : Prop :=
  exists d, key = JObj d /\ forallb (fun name => dict_mem name d) jwk_members = true.

(** The signing key made of the five members of an entry. *)
Definition signing_key (key : json) : dict :=
  match key with
  | JObj d =>
      flat_map (fun name => match dict_get d name with
                            | Some v => [(name, v)]
                            | None => []
                            end) jwk_members
  | _ => []
  end.

(** What is left of a key-set document when everything but [keys], and in
    each entry everything but the five members, is taken away. *)
Definition restrict (names : list string) (d : dict) : dict :=
  filter (fun kv => existsb (String.eqb (fst kv)) names) d.

Definition restrict_key (key : json) : json :=
  match key with
  | JObj d => JObj (restrict jwk_members d)
  | _ => key
  end.

Definition restrict_keys (v : json) : json :=
  match v with
  | JArr items => JArr (map restrict_key items)
  | _ => v
  end.

Definition restrict_jwks (jwks : json) : json :=
  match jwks with
  | JObj d => JObj (map (fun kv => (fst kv, restrict_keys (snd kv))) (restrict ["keys"] d))
  | _ => jwks
  end.

Definition with_restricted_jwks (lib : pylib) : pylib :=
  {| json_loads := fun body => (jwks <~ json_loads lib body; Ret (restrict_jwks jwks))%outcome;
     jwt_get_unverified_header := jwt_get_unverified_header lib;
     jwt_decode := jwt_decode lib |}.

(** [e] is the first failure among header extraction, verification and
    permission check, in that order, for the required permission
    [required]. *)
Definition first_failure (lib : pylib) (required : string) (w : world) (e : exn) : Prop :=
  get_token_auth_header (current_request w) = Raise e \/
  exists token,
    get_token_auth_header (current_request w) = Ret token /\
    (result (verify_decode_jwt lib token w) = Raise e \/
     exists payload,
       result (verify_decode_jwt lib token w) = Ret payload /\
       check_permissions required payload = Raise e).

(** The failure that stands for an exception [e] of the decoding step. *)
Definition mapped_failure (e : exn) : exn :=
  match e with
  | ExpiredSignatureError => token_expired
  | JWTClaimsError => invalid_claims
  | _ => invalid_token
  end.

(** The error mapping read as a property of verification as a whole: a
    token that [jwt.decode] refuses with [e], whatever the key, makes
    verification fail with the failure that stands for [e]. *)
Definition maps_every_decode_failure (lib : pylib) (token : string) (w : world) : Prop :=
  forall e,
    (forall rsa, jwt_decode lib (now w) token rsa ALGORITHMS API_AUDIENCE issuer = Raise e) ->
    result (verify_decode_jwt lib token w) = Raise (mapped_failure e).

(** Key resolution sends exactly one request, a GET for [url]. *)
Definition fetches_from (url : string) (lib : pylib) (token : string) (w : world) : Prop :=
  events (get_rsa lib token w) = [HttpGet url].

(** A claim named [name] that is a string other than [expected]. *)
Definition claim_differs (claims : dict) (name expected : string) : Prop :=
  exists v, dict_get claims name = Some (JStr v) /\ v <> expected.

(** The expiry claim is an integer the clock value [t] has not passed. *)
Definition unexpired (t : Z) (claims : dict) : Prop :=
  exists e, dict_get claims "exp" = Some (JNum e) /\ (t <= e)%Z.

(** What the module relies on from [jwt.decode] for claim validation:
    [signature_ok token key algorithms] says that [token] carries a valid
    signature by [key] under one of [algorithms], [claims_of token] is the
    payload it carries. Such a token, not expired, whose audience or issuer
    is not the expected one is refused with [JWTClaimsError]. *)
Definition validates_claims (lib : pylib)
    (signature_ok : string -> dict -> list string -> bool)
    (claims_of : string -> option dict) : Prop :=
  forall t token key algorithms audience iss claims,
    signature_ok token key algorithms = true ->
    claims_of token = Some claims ->
    unexpired t claims ->
    claim_differs claims "aud" audience \/ claim_differs claims "iss" iss ->
    jwt_decode lib t token key algorithms audience iss = Raise JWTClaimsError.

(** The clock decides whether [jwt.decode] accepts a token, not what it
    returns for it. *)
Definition clock_only_gates (lib : pylib) : Prop :=
  forall t t' token key algorithms audience iss payload payload',
    jwt_decode lib t token key algorithms audience iss = Ret payload ->
    jwt_decode lib t' token key algorithms audience iss = Ret payload' ->
    payload = payload'.

(** ** A small world to run the module in

    Two published keys, a handful of tokens given by what they carry, and
    library functions that behave on them the way python-jose does on real
    tokens: the header is read without verification, and decoding checks
    the signature, then the expiry, then audience and issuer. *)
Module Fixture.

Definition key_a : json :=
  JObj [("alg", JStr "RS256"); ("kty", JStr "RSA"); ("use", JStr "sig");
        ("n", JStr "sXchDaQebHnPiGvyDOAT4saGEUetSyo9MKLOoWFsueri23bOdgWp4Dy1Wl");
        ("e", JStr "AQAB"); ("kid", JStr "key-a"); ("x5c", JArr [JStr "MIIDBzCC"])].

Definition key_b : json :=
  JObj [("alg", JStr "RS256"); ("kty", JStr "RSA"); ("use", JStr "sig");
        ("n", JStr "0vx7agoebGcQSuuPiLJXZptN9nndrQmbXEps2aiAFbWhM78LhWx4cbbfAAt");
        ("e", JStr "AQAB"); ("kid", JStr "key-b"); ("x5c", JArr [JStr "MIIDCzCC"])].

Definition jwks_doc : json := JObj [("keys", JArr [key_a; key_b])].
Definition jwks_body : string := "{jwks}".

(** A token: the key identifier of its header, the key that signed it
    and its payload. *)
Record token_data := {
  header_kid : option string;
  signer : string;
  carried : dict
}.

Definition claims (aud iss : string) (exp : Z) (permissions : list string) : dict :=
  [("iss", JStr iss); ("aud", JStr aud); ("exp", JNum exp);
   ("permissions", JArr (map JStr permissions))].

Definition good_claims : dict := claims "stock" issuer 2000 ["get:drink"; "post:drink"].
Definition other_audience : dict := claims "other" issuer 2000 ["post:drink"].

Definition tokens : list (string * token_data) :=
  [("tok.good", {| header_kid := Some "key-b"; signer := "key-b";
                   carried := good_claims |});
   ("tok.aud", {| header_kid := Some "key-a"; signer := "key-a";
                  carried := other_audience |});
   ("tok.iss", {| header_kid := Some "key-a"; signer := "key-a";
                  carried := claims "stock" "https://dev-eid5kfny.us.auth0.com" 2000 [] |});
   ("tok.old", {| header_kid := Some "key-a"; signer := "key-a";
                  carried := claims "other" issuer 10 ["post:drink"] |});
   ("tok.forged", {| header_kid := Some "key-a"; signer := "key-z";
                     carried := claims "stock" issuer 2000 ["post:drink"] |});
   ("tok.nokid", {| header_kid := None; signer := "key-a";
                    carried := claims "stock" issuer 2000 ["post:drink"] |});
   ("tok.stray", {| header_kid := Some "key-z"; signer := "key-z";
                    carried := claims "stock" issuer 2000 ["post:drink"] |})].

Definition claims_of (token : string) : option dict :=
  option_map carried (dict_get tokens token).

Definition signature_ok (token : string) (key : dict) (algorithms : list string) : bool :=
  match dict_get tokens token, dict_get key "kid" with
  | Some td, Some kid => py_eq kid (JStr (signer td)) && existsb (String.eqb "RS256") algorithms
  | _, _ => false
  end.

Definition claim_is (claims : dict) (name expected : string) : bool :=
  match dict_get claims name with
  | Some v => py_eq v (JStr expected)
  | None => false
  end.

Definition expired (t : Z) (claims : dict) : bool :=
  match dict_get claims "exp" with
  | Some (JNum e) => (e <? t)%Z
  | _ => false
  end.

Definition decode (t : Z) (token : string) (key : dict) (algorithms : list string)
    (audience iss : string) : outcome dict :=
  match claims_of token with
  | None => Raise JWTError
  | Some claims =>
      if negb (signature_ok token key algorithms) then Raise JWTError
      else if expired t claims then Raise ExpiredSignatureError
      else if negb (claim_is claims "aud" audience && claim_is claims "iss" iss)
           then Raise JWTClaimsError
      else Ret claims
  end.

Definition unverified_header (token : string) : outcome dict :=
  match dict_get tokens token with
  | None => Raise JWTError
  | Some td =>
      Ret ([("alg", JStr "RS256"); ("typ", JStr "JWT")] ++
           match header_kid td with
           | Some kid => [("kid", JStr kid)]
           | None => []
           end)
  end.

Definition lib : pylib :=
  {| json_loads := fun body => if (body =? jwks_body)%string then Ret jwks_doc
                               else Raise JSONDecodeError;
     jwt_get_unverified_header := unverified_header;
     jwt_decode := decode |}.

(** The provider answers on both schemes, or not at all. *)
Definition online (url : string) : outcome string :=
  if (url =? jwks_url)%string ||
     (url =? "https://dev-eid5kfny.us.auth0.com/.well-known/jwks.json")%string
  then Ret jwks_body else Raise URLError.

Definition offline (url : string) : outcome string := Raise URLError.

Definition world_of (net : string -> outcome string) (t : Z) (header : option string) : world :=
  {| current_request := {| Authorization := header |}; urlopen := net; now := t |}.

(** A call without credentials, a call with the good token, and the same
    call made later. *)
Definition anonymous : world := world_of online 100 None.
Definition caller : world := world_of online 100 (Some "Bearer tok.good").
Definition caller_later : world := world_of online 1500 (Some "Bearer tok.good").

(** A protected operation: it leaves a trace and answers with the issuer
    it was handed. *)
Definition post_drink (payload : dict) (name : string) : M json :=
  fun _ => ([Effect ("store " ++ name)],
            match dict_get payload "iss" with
            | Some v => Ret v
            | None => Raise (KeyError "iss")
            end).

End Fixture.

(** ** Vocabulary of the further properties *)

(** The character [c] occurs in [s]. *)
Fixpoint occurs (c : ascii) (s : string) : bool :=
  match s with
  | EmptyString => false
  | String c' s' => Ascii.eqb c' c || occurs c s'
  end.

(** The capital of a lower-case ASCII letter. *)
Definition upper_char (l : ascii) : ascii := ascii_of_nat (nat_of_ascii l - 32).

(** [s] spells the lower-case ASCII word [word], each letter in either
    case. *)
Fixpoint spells (word s : string) : bool :=
  match word, s with
  | EmptyString, EmptyString => true
  | String l word', String c s' =>
      (Ascii.eqb c l || Ascii.eqb c (upper_char l)) && spells word' s'
  | _, _ => false
  end.

(** The codes of the module's failures with the status each one carries. *)
Definition auth_error_table : list (string * Z) :=
  [("invalid_header", 401%Z); ("token_expired", 401%Z); ("invalid_claims", 401%Z);
   ("invalid_token", 400%Z); ("invalid_permission", 400%Z);
   ("unauthorized_permission", 401%Z)].

Definition is_AuthError (e : exn) : bool :=
  match e with
  | AuthError _ _ => true
  | _ => false
  end.

Definition raises_no_AuthError {A} (o : outcome A) : Prop :=
  match o with
  | Ret _ => True
  | Raise e => is_AuthError e = false
  end.

(** Neither the network nor the libraries raise the module's own
    [AuthError]. *)
Definition outside_raises_no_AuthError (lib : pylib) (w : world) : Prop :=
  (forall url, raises_no_AuthError (urlopen w url)) /\
  (forall body, raises_no_AuthError (json_loads lib body)) /\
  (forall token, raises_no_AuthError (jwt_get_unverified_header lib token)).

(** The names of the members of a dict, in order. *)
Definition dict_keys (d : dict) : list string := map fst d.

(** * Properties *)

(** ** Header extraction *)

Lemma split_not_nil (sep : ascii) (s : string) : split sep s <> [].
Proof.
  destruct s as [|c s]; simpl.
  - discriminate.
  - destruct (Ascii.eqb c sep); [discriminate|].
    destruct (split sep s); discriminate.
Qed.

(** The two ways out of [get_token_auth_header], with the shape of the
    header that leads to each. *)
Lemma get_token_auth_header_cases (req : request) :
  (exists token, get_token_auth_header req = Ret token /\
                 bearer_shape (split " ") req token) \/
  (exists d, get_token_auth_header req = Raise (invalid_header d) /\
             forall token, ~ bearer_shape (split " ") req token).
Proof.
  unfold get_token_auth_header, bearer_shape.
  destruct (Authorization req) as [h|] eqn:Hh; simpl.
  - destruct (h =? "")%string eqn:Hempty.
    + right. eexists. split; [reflexivity|].
      intros token (h' & scheme & Heq & Hparts & _).
      apply String.eqb_eq in Hempty. injection Heq as <-. subst h.
      discriminate Hparts.
    + destruct (split " " h) as [|p ps] eqn:Hsplit.
      { exfalso. exact (split_not_nil _ _ Hsplit). }
      simpl.
      destruct (lower p =? "bearer")%string eqn:Hscheme; simpl.
      * destruct ps as [|t [|u ps]]; simpl.
        -- right. eexists. split; [reflexivity|].
           intros token (h' & scheme & Heq & Hparts & _).
           injection Heq as <-. rewrite Hsplit in Hparts. discriminate.
        -- left. exists t. split; [reflexivity|].
           exists h, p. repeat split; trivial.
           now apply String.eqb_eq.
        -- right. eexists. split; [reflexivity|].
           intros token (h' & scheme & Heq & Hparts & _).
           injection Heq as <-. rewrite Hsplit in Hparts. discriminate.
      * right. eexists. split; [reflexivity|].
        intros token (h' & scheme & Heq & Hparts & Hlow).
        injection Heq as <-. rewrite Hsplit in Hparts.
        injection Hparts as -> _.
        apply String.eqb_neq in Hscheme. contradiction.
  - right. eexists. split; [reflexivity|].
    intros token (h' & scheme & Heq & _). discriminate.
Qed.

Lemma bearer_shape_functional (parts : string -> list string) (req : request)
    (t1 t2 : string) :
  bearer_shape parts req t1 -> bearer_shape parts req t2 -> t1 = t2.
Proof.
  intros (h1 & s1 & H1 & P1 & _) (h2 & s2 & H2 & P2 & _).
  rewrite H1 in H2. injection H2 as <-. rewrite P1 in P2.
  now injection P2.
Qed.

(** C4, as the code has it: extraction returns the second part of the
    Authorization header verbatim exactly when the header is present, cut at
    every single space character it has exactly two parts, and the first
    part is [bearer] up to case; in every other case, an absent header
    included, it fails with [invalid_header] and status 401. *)
Theorem get_token_auth_header_spec (req : request) :
  extraction_contract (split " ") req.
Proof.
  split.
  - intros token. split.
    + intros Hret.
      destruct (get_token_auth_header_cases req) as [(t & Ht & Hs)|(d & Hd & _)].
      * rewrite Hret in Ht. injection Ht as <-. exact Hs.
      * rewrite Hret in Hd. discriminate.
    + intros Hshape.
      destruct (get_token_auth_header_cases req) as [(t & Ht & Hs)|(d & _ & Hn)].
      * rewrite Ht. f_equal. exact (bearer_shape_functional _ _ _ _ Hs Hshape).
      * exfalso. exact (Hn token Hshape).
  - intros Hnone.
    destruct (get_token_auth_header_cases req) as [(t & _ & Hs)|(d & Hd & _)].
    + exfalso. exact (Hnone t Hs).
    + exists d. exact Hd.
Qed.

(** C4, as stated, fails: a header with two blanks between scheme and
    token has exactly two whitespace-separated parts and the scheme
    [Bearer], and is refused. *)
Lemma get_token_auth_header_whitespace_counterexample :
  ~ extraction_contract whitespace_parts {| Authorization := Some "Bearer  abc" |}.
Proof.
  intros [Hiff _].
  assert (Hshape : bearer_shape whitespace_parts
                     {| Authorization := Some "Bearer  abc" |} "abc").
  { exists "Bearer  abc", "Bearer". repeat split; reflexivity. }
  apply Hiff in Hshape. vm_compute in Hshape. discriminate Hshape.
Qed.

(** The other direction fails as well: [Bearer] followed by one blank is
    accepted, with the empty string as token. *)
Example get_token_auth_header_empty_token :
  get_token_auth_header {| Authorization := Some "Bearer " |} = Ret "" /\
  whitespace_parts "Bearer " = ["Bearer"].
Proof. split; reflexivity. Qed.

(** ** Permission check *)

Lemma py_eq_str (s : string) (v : json) : py_eq (JStr s) v = true <-> v = JStr s.
Proof.
  destruct v; simpl; try (split; [discriminate|discriminate]).
  rewrite String.eqb_eq. split; [intros ->; reflexivity | intros [= ->]; reflexivity].
Qed.

Lemma str_in_list (s : string) (items : list json) :
  existsb (py_eq (JStr s)) items = true <-> In (JStr s) items.
Proof.
  rewrite existsb_exists. split.
  - intros (v & Hin & Heq). apply py_eq_str in Heq. now subst v.
  - intros Hin. exists (JStr s). split; [exact Hin|]. now apply py_eq_str.
Qed.

Lemma dict_mem_get {A} (k : string) (d : list (string * A)) :
  dict_mem k d = true <-> exists v, dict_get d k = Some v.
Proof.
  unfold dict_mem. destruct (dict_get d k) as [v|].
  - split; [intros _; now exists v | reflexivity].
  - split; [discriminate | intros (v & Hv); discriminate].
Qed.

Lemma check_permissions_missing (permission : string) (payload : dict) :
  dict_get payload "permissions" = None ->
  check_permissions permission payload = Raise invalid_permission.
Proof.
  intros H. unfold check_permissions, dict_mem. rewrite H. reflexivity.
Qed.

Lemma check_permissions_list (permission : string) (payload : dict) (items : list json) :
  dict_get payload "permissions" = Some (JArr items) ->
  check_permissions permission payload =
    if existsb (py_eq (JStr permission)) items then Ret true
    else Raise unauthorized_permission.
Proof.
  intros H. unfold check_permissions, dict_mem, dict_getitem. rewrite H.
  cbn [negb obind py_in].
  destruct (existsb (py_eq (JStr permission)) items); reflexivity.
Qed.

(** C3: for every required permission and every claim set, the check fails
    with [invalid_permission] and status 400 when the claim set has no
    [permissions] entry; when the entry is there, a sequence as the data
    model has it, the check fails with [unauthorized_permission] and status
    401 unless the sequence contains the very string required, and returns
    [True] if it does. The check is a function of its two arguments: it
    neither reads the world nor leaves an event. *)
Theorem check_permissions_spec (permission : string) (payload : dict) :
  (dict_get payload "permissions" = None ->
   check_permissions permission payload =
     Raise (AuthError {| code := "invalid_permission";
                         description := "Permissions not included in payload" |} 400)) /\
  (forall items,
     dict_get payload "permissions" = Some (JArr items) ->
     (~ In (JStr permission) items ->
      check_permissions permission payload =
        Raise (AuthError {| code := "unauthorized_permission";
                            description := " Permission string not in the payload permissions array" |}
                         401)) /\
     (In (JStr permission) items ->
      check_permissions permission payload = Ret true)).
Proof.
  split.
  - apply check_permissions_missing.
  - intros items Hitems. rewrite (check_permissions_list _ _ _ Hitems).
    destruct (existsb (py_eq (JStr permission)) items) eqn:Hex.
    + apply str_in_list in Hex. split; [contradiction | reflexivity].
    + split; [reflexivity|]. intros Hin. apply str_in_list in Hin. congruence.
Qed.

(** The match is on the whole string and on its case. *)
Example check_permissions_exact :
  let payload := [("permissions", JArr [JStr "post:drinks"; JStr "Get:Drink"])] in
  check_permissions "post:drink" payload = Raise unauthorized_permission /\
  check_permissions "get:drink" payload = Raise unauthorized_permission /\
  check_permissions "post:drinks" payload = Ret true /\
  check_permissions "post:drinks" [("scope", JStr "openid")] = Raise invalid_permission.
Proof. repeat split; reflexivity. Qed.

(** Outside the data model: an entry that is a string is searched for a
    substring, and an entry that is no container raises [TypeError]. *)
Example check_permissions_other_entries :
  check_permissions "post:drink" [("permissions", JStr "post:drinks")] = Ret true /\
  check_permissions "post:drink" [("permissions", JNull)] = Raise TypeError.
Proof. split; reflexivity. Qed.

(** ** Key resolution *)

(** [get_rsa] sends its one request whatever happens next; what it returns
    is the chain of the steps that follow the request. *)
Lemma get_rsa_run (lib : pylib) (token : string) (w : world) :
  get_rsa lib token w =
    ([HttpGet jwks_url],
     (body <~ urlopen w jwks_url;
      jwks <~ json_loads lib body;
      unverified_header <~ jwt_get_unverified_header lib token;
      if negb (dict_mem "kid" unverified_header) then
        Raise (invalid_header "key id missing in token header")
      else
        keys <~ py_getitem jwks "keys";
        items <~ py_iter keys;
        rsa <~ get_rsa_loop unverified_header items [];
        if dict_is_empty rsa then Raise (invalid_header "Token header is malformed.")
        else Ret rsa)%outcome).
Proof.
  unfold get_rsa, bind, http_get, lift, raise, ret.
  destruct (urlopen w jwks_url) as [body|e]; [|reflexivity]. simpl.
  destruct (json_loads lib body) as [jwks|e]; [|reflexivity]. simpl.
  destruct (jwt_get_unverified_header lib token) as [header|e]; [|reflexivity]. simpl.
  destruct (negb (dict_mem "kid" header)); [reflexivity|].
  destruct (py_getitem jwks "keys") as [keys|e]; [|reflexivity]. simpl.
  destruct (py_iter keys) as [items|e]; [|reflexivity]. simpl.
  destruct (get_rsa_loop header items []) as [rsa|e]; [|reflexivity]. simpl.
  destruct (dict_is_empty rsa); reflexivity.
Qed.

Lemma get_rsa_events (lib : pylib) (token : string) (w : world) :
  events (get_rsa lib token w) = [HttpGet jwks_url].
Proof. rewrite get_rsa_run. reflexivity. Qed.

Lemma has_jwk_members_get (key : json) :
  has_jwk_members key ->
  exists d kty kid use n e,
    key = JObj d /\
    dict_get d "kty" = Some kty /\ dict_get d "kid" = Some kid /\
    dict_get d "use" = Some use /\ dict_get d "n" = Some n /\
    dict_get d "e" = Some e.
Proof.
  intros (d & -> & Hall). exists d. simpl in Hall.
  repeat (apply andb_prop in Hall; destruct Hall as [?H Hall]).
  repeat match goal with
         | H : dict_mem _ _ = true |- _ => apply dict_mem_get in H; destruct H as [? ?]
         end.
  do 5 eexists. repeat split; eassumption.
Qed.

Lemma signing_key_members (d : dict) (kty kid use n e : json) :
  dict_get d "kty" = Some kty -> dict_get d "kid" = Some kid ->
  dict_get d "use" = Some use -> dict_get d "n" = Some n ->
  dict_get d "e" = Some e ->
  signing_key (JObj d) = [("kty", kty); ("kid", kid); ("use", use); ("n", n); ("e", e)].
Proof.
  intros H1 H2 H3 H4 H5. unfold signing_key, jwk_members. simpl.
  rewrite H1, H2, H3, H4, H5. reflexivity.
Qed.

(** The loop is a search for the first matching entry. *)
Lemma get_rsa_loop_find (unverified_header : dict) (wanted : json)
    (keys : list json) (rsa : dict) :
  dict_get unverified_header "kid" = Some wanted ->
  Forall has_jwk_members keys ->
  get_rsa_loop unverified_header keys rsa =
    match find (key_matches wanted) keys with
    | Some key => Ret (signing_key key)
    | None => Ret rsa
    end.
Proof.
  intros Hkid Hall. induction Hall as [|key keys Hkey _ IH]; [reflexivity|].
  destruct (has_jwk_members_get key Hkey)
    as (d & kty & kid & use & n & e & -> & Hkty & Hk & Huse & Hn & He).
  cbn [get_rsa_loop find]. unfold key_matches at 1. cbn [py_getitem].
  unfold dict_getitem. rewrite Hk, Hkid, Hkty, Huse, Hn, He. cbn [obind].
  destruct (py_eq kid wanted).
  - rewrite (signing_key_members d kty kid use n e); trivial.
  - exact IH.
Qed.

Lemma find_signing_key_not_empty (wanted : json) (keys : list json) (key : json) :
  Forall has_jwk_members keys ->
  find (key_matches wanted) keys = Some key ->
  dict_is_empty (signing_key key) = false.
Proof.
  intros Hall Hfind. apply find_some in Hfind. destruct Hfind as [Hin _].
  rewrite Forall_forall in Hall.
  destruct (has_jwk_members_get key (Hall key Hin))
    as (d & kty & kid & use & n & e & -> & Hkty & Hk & Huse & Hn & He).
  rewrite (signing_key_members d kty kid use n e); trivial.
Qed.

(** C5: for a token whose header carries a key identifier and a retrieved
    key set whose entries have the five members of a signing key, key
    resolution walks the set in order and returns the signing key of the
    first entry whose key identifier equals the token's; when no entry
    matches it fails with [invalid_header], status 401 and the description
    "Token header is malformed." *)
Theorem get_rsa_first_match (lib : pylib) (token : string) (w : world)
    (body : string) (jwks : json) (unverified_header : dict) (wanted : json)
    (keys : list json) :
  urlopen w jwks_url = Ret body ->
  json_loads lib body = Ret jwks ->
  jwt_get_unverified_header lib token = Ret unverified_header ->
  dict_get unverified_header "kid" = Some wanted ->
  py_getitem jwks "keys" = Ret (JArr keys) ->
  Forall has_jwk_members keys ->
  result (get_rsa lib token w) =
    match find (key_matches wanted) keys with
    | Some key => Ret (signing_key key)
    | None => Raise (AuthError {| code := "invalid_header";
                                  description := "Token header is malformed." |} 401)
    end.
Proof.
  intros Hbody Hjwks Hheader Hkid Hkeys Hall.
  rewrite get_rsa_run. unfold result. cbn [snd].
  rewrite Hbody. cbn [obind]. rewrite Hjwks. cbn [obind].
  rewrite Hheader. cbn [obind].
  unfold dict_mem. rewrite Hkid. cbn [negb].
  rewrite Hkeys. cbn [obind py_iter].
  rewrite (get_rsa_loop_find _ wanted _ _ Hkid Hall).
  destruct (find (key_matches wanted) keys) as [key|] eqn:Hfind.
  - cbn [obind]. now rewrite (find_signing_key_not_empty wanted keys key Hall Hfind).
  - reflexivity.
Qed.

Lemma get_rsa_first_match_witness :
  (urlopen Fixture.anonymous jwks_url = Ret Fixture.jwks_body /\
   json_loads Fixture.lib Fixture.jwks_body = Ret Fixture.jwks_doc /\
   jwt_get_unverified_header Fixture.lib "tok.good" =
     Ret [("alg", JStr "RS256"); ("typ", JStr "JWT"); ("kid", JStr "key-b")] /\
   py_getitem Fixture.jwks_doc "keys" = Ret (JArr [Fixture.key_a; Fixture.key_b])) /\
  result (get_rsa Fixture.lib "tok.good" Fixture.anonymous) =
    Ret (signing_key Fixture.key_b).
Proof.
  split; [repeat split; reflexivity|].
  refine (get_rsa_first_match Fixture.lib "tok.good" Fixture.anonymous
            Fixture.jwks_body Fixture.jwks_doc
            [("alg", JStr "RS256"); ("typ", JStr "JWT"); ("kid", JStr "key-b")]
            (JStr "key-b") [Fixture.key_a; Fixture.key_b]
            eq_refl eq_refl eq_refl eq_refl eq_refl _).
  repeat constructor; eexists; split; reflexivity.
Defined.

(** Of two entries with the same key identifier the earlier one wins, and a
    key identifier that no entry has is refused. *)
Example get_rsa_loop_duplicates :
  let first := JObj [("kid", JStr "k"); ("kty", JStr "RSA"); ("use", JStr "sig");
                     ("n", JStr "first"); ("e", JStr "AQAB")] in
  let second := JObj [("kid", JStr "k"); ("kty", JStr "RSA"); ("use", JStr "sig");
                      ("n", JStr "second"); ("e", JStr "AQAB")] in
  get_rsa_loop [("kid", JStr "k")] [first; second] [] = Ret (signing_key first) /\
  get_rsa_loop [("kid", JStr "k")] [second; first] [] = Ret (signing_key second).
Proof. split; reflexivity. Qed.

Example get_rsa_unknown_kid :
  get_rsa Fixture.lib "tok.stray" Fixture.anonymous =
    ([HttpGet jwks_url], Raise (invalid_header "Token header is malformed.")).
Proof. reflexivity. Qed.

(** C9: key resolution sends its request before it looks at the token. For
    every token the request is sent; a failed fetch is what the caller
    gets, whatever the token's header is like; and a header without key
    identifier is reported, as [invalid_header] with status 401, only once
    the key set has been fetched and parsed. *)
Theorem get_rsa_fetches_first (lib : pylib) (token : string) (w : world) :
  events (get_rsa lib token w) = [HttpGet jwks_url] /\
  (forall e, urlopen w jwks_url = Raise e ->
             result (get_rsa lib token w) = Raise e) /\
  (forall body jwks unverified_header,
     urlopen w jwks_url = Ret body ->
     json_loads lib body = Ret jwks ->
     jwt_get_unverified_header lib token = Ret unverified_header ->
     dict_get unverified_header "kid" = None ->
     result (get_rsa lib token w) =
       Raise (AuthError {| code := "invalid_header";
                           description := "key id missing in token header" |} 401)).
Proof.
  rewrite get_rsa_run. unfold events, result. cbn [fst snd].
  split; [reflexivity|]. split.
  - intros e He. rewrite He. reflexivity.
  - intros body jwks header Hbody Hjwks Hheader Hkid.
    rewrite Hbody. cbn [obind]. rewrite Hjwks. cbn [obind].
    rewrite Hheader. cbn [obind]. unfold dict_mem. rewrite Hkid. reflexivity.
Qed.

(** With the provider unreachable, a token without key identifier fails on
    the fetch; with the provider reachable, on its header. *)
Example get_rsa_no_kid_offline_online :
  get_rsa Fixture.lib "tok.nokid" (Fixture.world_of Fixture.offline 100 None) =
    ([HttpGet jwks_url], Raise URLError) /\
  get_rsa Fixture.lib "tok.nokid" Fixture.anonymous =
    ([HttpGet jwks_url], Raise (invalid_header "key id missing in token header")).
Proof. split; reflexivity. Qed.

(** *** What the module reads of the key-set document *)

Lemma dict_get_restrict (names : list string) (d : dict) (k : string) :
  existsb (String.eqb k) names = true ->
  dict_get (restrict names d) k = dict_get d k.
Proof.
  intros Hk. induction d as [|[k' v] d IH]; [reflexivity|].
  unfold restrict in *. cbn [filter fst dict_get].
  destruct (k' =? k)%string eqn:Heq.
  - apply String.eqb_eq in Heq. subst k'. rewrite Hk.
    cbn [dict_get]. now rewrite String.eqb_refl.
  - destruct (existsb (String.eqb k') names); [|exact IH].
    cbn [dict_get]. rewrite Heq. exact IH.
Qed.

Lemma dict_get_map_values (f : json -> json) (d : dict) (k : string) :
  dict_get (map (fun kv => (fst kv, f (snd kv))) d) k = option_map f (dict_get d k).
Proof.
  induction d as [|[k' v] d IH]; [reflexivity|].
  cbn [map fst snd dict_get]. destruct (k' =? k)%string; [reflexivity | exact IH].
Qed.

Lemma py_getitem_restrict_key (key : json) (name : string) :
  existsb (String.eqb name) jwk_members = true ->
  py_getitem (restrict_key key) name = py_getitem key name.
Proof.
  intros Hname. destruct key; try reflexivity.
  cbn [restrict_key py_getitem]. unfold dict_getitem.
  now rewrite dict_get_restrict.
Qed.

Lemma get_rsa_loop_restrict (unverified_header : dict) (items : list json) (rsa : dict) :
  get_rsa_loop unverified_header (map restrict_key items) rsa =
  get_rsa_loop unverified_header items rsa.
Proof.
  induction items as [|key items IH]; [reflexivity|].
  cbn [map get_rsa_loop].
  rewrite !py_getitem_restrict_key by reflexivity.
  rewrite IH. reflexivity.
Qed.

Lemma scan_restrict_jwks (jwks : json) (unverified_header : dict) (rsa : dict) :
  (keys <~ py_getitem (restrict_jwks jwks) "keys";
   items <~ py_iter keys;
   get_rsa_loop unverified_header items rsa)%outcome =
  (keys <~ py_getitem jwks "keys";
   items <~ py_iter keys;
   get_rsa_loop unverified_header items rsa)%outcome.
Proof.
  destruct jwks as [| | | | |d]; try reflexivity.
  cbn [restrict_jwks py_getitem]. unfold dict_getitem.
  rewrite dict_get_map_values, dict_get_restrict by reflexivity.
  destruct (dict_get d "keys") as [v|]; [|reflexivity].
  cbn [option_map obind].
  destruct v; try reflexivity.
  cbn [restrict_keys py_iter obind]. apply get_rsa_loop_restrict.
Qed.

Lemma scan_then {B} (jwks : json) (unverified_header : dict) (k : dict -> outcome B) :
  (keys <~ py_getitem jwks "keys";
   items <~ py_iter keys;
   rsa <~ get_rsa_loop unverified_header items [];
   k rsa)%outcome =
  (rsa <~ (keys <~ py_getitem jwks "keys";
           items <~ py_iter keys;
           get_rsa_loop unverified_header items []);
   k rsa)%outcome.
Proof.
  destruct (py_getitem jwks "keys") as [keys|e]; [|reflexivity]. cbn [obind].
  destruct (py_iter keys); reflexivity.
Qed.

Lemma get_rsa_restricted (lib : pylib) (token : string) (w : world) :
  get_rsa (with_restricted_jwks lib) token w = get_rsa lib token w.
Proof.
  rewrite !get_rsa_run. f_equal.
  destruct (urlopen w jwks_url) as [body|e]; [|reflexivity]. cbn [obind].
  cbn [with_restricted_jwks json_loads jwt_get_unverified_header].
  destruct (json_loads lib body) as [jwks|e]; [|reflexivity]. cbn [obind].
  destruct (jwt_get_unverified_header lib token) as [header|e]; [|reflexivity].
  cbn [obind].
  destruct (negb (dict_mem "kid" header)); [reflexivity|].
  rewrite !scan_then, scan_restrict_jwks. reflexivity.
Qed.

(** C7, as the code has it: key resolution sends exactly one request, a GET
    for [http://<identity-provider-domain>/.well-known/jwks.json], over
    plain HTTP; of the JSON document that answers it the module reads the
    [keys] array and, in its entries, the members [kid], [kty], [use], [n]
    and [e], nothing else. *)
Theorem get_rsa_fetches_plain_http (lib : pylib) (token : string) (w : world) :
  fetches_from "http://dev-eid5kfny.us.auth0.com/.well-known/jwks.json" lib token w /\
  jwks_url = ("http://" ++ AUTH0_DOMAIN ++ "/.well-known/jwks.json")%string /\
  get_rsa (with_restricted_jwks lib) token w = get_rsa lib token w.
Proof.
  split; [apply get_rsa_events|]. split; [reflexivity|]. apply get_rsa_restricted.
Qed.

(** C7, as stated, fails: the request does not go to the [https] URL. *)
Lemma get_rsa_https_counterexample :
  ~ fetches_from "https://dev-eid5kfny.us.auth0.com/.well-known/jwks.json"
      Fixture.lib "tok.good" Fixture.anonymous.
Proof. unfold fetches_from. vm_compute. discriminate. Qed.

(** ** Token verification *)

Lemma verify_decode_jwt_run (lib : pylib) (token : string) (w : world) :
  verify_decode_jwt lib token w =
    ([HttpGet jwks_url],
     (rsa <~ result (get_rsa lib token w);
      decode_or_fail lib (now w) token rsa)%outcome).
Proof.
  pose proof (get_rsa_events lib token w) as Hev.
  unfold verify_decode_jwt, bind, ask_clock, lift, result, events in *.
  destruct (get_rsa lib token w) as [tr [rsa|e]]; cbn [fst snd obind] in *;
    subst tr; reflexivity.
Qed.

Lemma verify_decode_jwt_events (lib : pylib) (token : string) (w : world) :
  events (verify_decode_jwt lib token w) = [HttpGet jwks_url].
Proof. rewrite verify_decode_jwt_run. reflexivity. Qed.

(** On success the payload is the one [jwt.decode] returned. *)
Lemma decode_or_fail_Ret (lib : pylib) (t : Z) (token : string) (rsa payload : dict) :
  decode_or_fail lib t token rsa = Ret payload ->
  jwt_decode lib t token rsa ALGORITHMS API_AUDIENCE issuer = Ret payload.
Proof.
  unfold decode_or_fail, try_.
  destruct (jwt_decode lib t token rsa ALGORITHMS API_AUDIENCE issuer) as [p|e];
    cbn [obind].
  - intros [= ->]. reflexivity.
  - destruct e; discriminate.
Qed.

Lemma decode_or_fail_Raise (lib : pylib) (t : Z) (token : string) (rsa : dict) (e : exn) :
  jwt_decode lib t token rsa ALGORITHMS API_AUDIENCE issuer = Raise e ->
  decode_or_fail lib t token rsa =
    Raise (match e with
           | ExpiredSignatureError => token_expired
           | JWTClaimsError => invalid_claims
           | _ => invalid_token
           end).
Proof.
  intros H. unfold decode_or_fail, try_. rewrite H. cbn [obind].
  destruct e; reflexivity.
Qed.

(** C2, as the code has it: once the key is resolved, a failure of the
    decoding step is mapped by the first clause that applies: an expired
    token gives [token_expired] with status 401, a failed claim validation
    gives [invalid_claims] with status 401, and every other failure of
    decoding or of the signature check gives [invalid_token] with status
    400. *)
Theorem verify_decode_jwt_error_mapping (lib : pylib) (token : string) (w : world)
    (rsa : dict) (e : exn) :
  result (get_rsa lib token w) = Ret rsa ->
  jwt_decode lib (now w) token rsa ALGORITHMS API_AUDIENCE issuer = Raise e ->
  result (verify_decode_jwt lib token w) =
    Raise (match e with
           | ExpiredSignatureError =>
               AuthError {| code := "token_expired"; description := "Token expired." |} 401
           | JWTClaimsError =>
               AuthError {| code := "invalid_claims";
                            description := "Incorrect claims. Please, check the audience and issuer." |}
                         401
           | _ =>
               AuthError {| code := "invalid_token";
                            description := "Unable to decode authentication token." |} 400
           end).
Proof.
  intros Hrsa Hdecode. rewrite verify_decode_jwt_run. unfold result at 1. cbn [snd].
  rewrite Hrsa. cbn [obind]. rewrite (decode_or_fail_Raise _ _ _ _ _ Hdecode).
  destruct e; reflexivity.
Qed.

Lemma verify_decode_jwt_error_mapping_witness :
  (result (get_rsa Fixture.lib "tok.old" Fixture.anonymous) =
     Ret (signing_key Fixture.key_a) /\
   jwt_decode Fixture.lib (now Fixture.anonymous) "tok.old" (signing_key Fixture.key_a)
     ALGORITHMS API_AUDIENCE issuer = Raise ExpiredSignatureError) /\
  result (verify_decode_jwt Fixture.lib "tok.old" Fixture.anonymous) =
    Raise (AuthError {| code := "token_expired"; description := "Token expired." |} 401).
Proof.
  split; [split; reflexivity|].
  exact (verify_decode_jwt_error_mapping Fixture.lib "tok.old" Fixture.anonymous
           (signing_key Fixture.key_a) ExpiredSignatureError eq_refl eq_refl).
Defined.

(** The three classes of failure, and the order of the checks behind them:
    a forged token that is also expired is an invalid token. *)
Example verify_decode_jwt_failures :
  let run token t := result (verify_decode_jwt Fixture.lib token
                               (Fixture.world_of Fixture.online t None)) in
  run "tok.old" 100%Z = Raise token_expired /\
  run "tok.aud" 100%Z = Raise invalid_claims /\
  run "tok.forged" 100%Z = Raise invalid_token /\
  run "tok.forged" 5000%Z = Raise invalid_token /\
  run "tok.good" 5000%Z = Raise token_expired.
Proof. repeat split; reflexivity. Qed.

(** C2, as stated, fails: a malformed token, which [jwt.decode] refuses
    with [JWTError] whatever the key, does not give [invalid_token]. Its
    header is read during key resolution, ahead of the [try] statement, and
    the library's exception for it is what verification raises. *)
Lemma verify_decode_jwt_malformed_counterexample :
  ~ maps_every_decode_failure Fixture.lib "garbage" Fixture.anonymous.
Proof.
  intros H. specialize (H JWTError (fun rsa => eq_refl)).
  vm_compute in H. discriminate H.
Qed.

(** A token whose header cannot be read never reaches the decoding step:
    key resolution passes the library's exception on. *)
Example verify_decode_jwt_unreadable_header :
  result (verify_decode_jwt Fixture.lib "garbage"
            Fixture.anonymous) = Raise JWTError.
Proof. reflexivity. Qed.

(** *** Audience and issuer *)

Lemma fixture_validates_claims :
  validates_claims Fixture.lib Fixture.signature_ok Fixture.claims_of.
Proof.
  intros t token key algorithms audience iss claims Hsig Hclaims (e & Hexp & Hle) Hdiff.
  cbn [Fixture.lib jwt_decode]. unfold Fixture.decode.
  rewrite Hclaims, Hsig. cbn [negb].
  unfold Fixture.expired. rewrite Hexp.
  destruct (e <? t)%Z eqn:Hlt; [apply Z.ltb_lt in Hlt; lia|].
  assert (Hno : Fixture.claim_is claims "aud" audience &&
                Fixture.claim_is claims "iss" iss = false).
  { unfold Fixture.claim_is.
    destruct Hdiff as [(v & Hv & Hne)|(v & Hv & Hne)]; rewrite Hv; cbn [py_eq];
      apply String.eqb_neq in Hne; rewrite Hne.
    - reflexivity.
    - apply andb_false_r. }
  rewrite Hno. reflexivity.
Qed.

(** C6: the decoder is called with the audience [stock] and the issuer
    [https://<domain>/], the domain followed by a slash. Given that
    [jwt.decode] refuses a validly signed, unexpired token whose audience
    or issuer is not the expected one with [JWTClaimsError], verification
    of such a token fails with [invalid_claims] and status 401. *)
Theorem verify_decode_jwt_claims_mismatch (lib : pylib)
    (signature_ok : string -> dict -> list string -> bool)
    (claims_of : string -> option dict)
    (token : string) (w : world) (rsa claims : dict) :
  validates_claims lib signature_ok claims_of ->
  result (get_rsa lib token w) = Ret rsa ->
  signature_ok token rsa ["RS256"] = true ->
  claims_of token = Some claims ->
  unexpired (now w) claims ->
  claim_differs claims "aud" "stock" \/
  claim_differs claims "iss" ("https://" ++ AUTH0_DOMAIN ++ "/")%string ->
  verify_decode_jwt lib token w =
    ([HttpGet jwks_url],
     Raise (AuthError {| code := "invalid_claims";
                         description := "Incorrect claims. Please, check the audience and issuer." |}
                      401)).
Proof.
  intros Hlib Hrsa Hsig Hclaims Hexp Hdiff.
  rewrite verify_decode_jwt_run. f_equal. rewrite Hrsa. cbn [obind].
  rewrite (decode_or_fail_Raise lib (now w) token rsa JWTClaimsError); [reflexivity|].
  exact (Hlib (now w) token rsa ALGORITHMS API_AUDIENCE issuer claims
           Hsig Hclaims Hexp Hdiff).
Qed.

Lemma verify_decode_jwt_claims_mismatch_witness :
  (result (get_rsa Fixture.lib "tok.aud" Fixture.anonymous) =
     Ret (signing_key Fixture.key_a) /\
   Fixture.signature_ok "tok.aud" (signing_key Fixture.key_a) ["RS256"] = true /\
   Fixture.claims_of "tok.aud" = Some Fixture.other_audience /\
   unexpired (now Fixture.anonymous) Fixture.other_audience /\
   claim_differs Fixture.other_audience "aud" "stock") /\
  verify_decode_jwt Fixture.lib "tok.aud" Fixture.anonymous =
    ([HttpGet jwks_url], Raise invalid_claims).
Proof.
  assert (Hexp : unexpired (now Fixture.anonymous) Fixture.other_audience).
  { exists 2000%Z. split; [reflexivity | simpl; lia]. }
  assert (Haud : claim_differs Fixture.other_audience "aud" "stock").
  { exists "other". split; [reflexivity | discriminate]. }
  split; [repeat split; trivial|].
  exact (verify_decode_jwt_claims_mismatch Fixture.lib
           Fixture.signature_ok Fixture.claims_of "tok.aud" Fixture.anonymous
           (signing_key Fixture.key_a) Fixture.other_audience
           fixture_validates_claims eq_refl eq_refl eq_refl Hexp (or_introl Haud)).
Defined.

(** An issuer that lacks the final slash is not the expected issuer. *)
Example verify_decode_jwt_issuer_without_slash :
  Fixture.claims_of "tok.iss" =
    Some (Fixture.claims "stock" "https://dev-eid5kfny.us.auth0.com" 2000 []) /\
  result (verify_decode_jwt Fixture.lib "tok.iss"
            Fixture.anonymous) = Raise invalid_claims.
Proof. split; reflexivity. Qed.

(** *** Repeated verification *)

Lemma get_rsa_same_key_set (lib : pylib) (token : string) (w1 w2 : world) :
  urlopen w1 jwks_url = urlopen w2 jwks_url ->
  get_rsa lib token w1 = get_rsa lib token w2.
Proof. intros H. rewrite !get_rsa_run, H. reflexivity. Qed.

Lemma fixture_clock_only_gates : clock_only_gates Fixture.lib.
Proof.
  intros t t' token key algorithms audience iss payload payload'.
  cbn [Fixture.lib jwt_decode]. unfold Fixture.decode.
  destruct (Fixture.claims_of token) as [claims|]; [|discriminate].
  destruct (negb (Fixture.signature_ok token key algorithms)); [discriminate|].
  destruct (Fixture.expired t claims); [discriminate|].
  destruct (Fixture.expired t' claims); [discriminate|].
  destruct (negb (Fixture.claim_is claims "aud" audience &&
                  Fixture.claim_is claims "iss" iss)); [discriminate|].
  intros [= <-] [= <-]. reflexivity.
Qed.

(** C8: given that the clock only decides whether [jwt.decode] accepts a
    token, two verifications of the same token that both succeed, made with
    the same answer of the key-set endpoint, return identical claim sets. *)
Theorem verify_decode_jwt_idempotent (lib : pylib) (token : string)
    (w1 w2 : world) (payload1 payload2 : dict) :
  clock_only_gates lib ->
  urlopen w1 jwks_url = urlopen w2 jwks_url ->
  result (verify_decode_jwt lib token w1) = Ret payload1 ->
  result (verify_decode_jwt lib token w2) = Ret payload2 ->
  payload1 = payload2.
Proof.
  intros Hlib Hnet. rewrite !verify_decode_jwt_run. unfold result at 1 3. cbn [snd].
  rewrite (get_rsa_same_key_set lib token w1 w2 Hnet).
  destruct (result (get_rsa lib token w2)) as [rsa|e]; cbn [obind]; [|discriminate].
  intros H1 H2. apply decode_or_fail_Ret in H1, H2.
  exact (Hlib _ _ _ _ _ _ _ _ _ H1 H2).
Qed.

Lemma verify_decode_jwt_idempotent_witness :
  (urlopen Fixture.caller jwks_url = urlopen Fixture.caller_later jwks_url /\
   now Fixture.caller <> now Fixture.caller_later /\
   result (verify_decode_jwt Fixture.lib "tok.good" Fixture.caller) =
     Ret Fixture.good_claims /\
   result (verify_decode_jwt Fixture.lib "tok.good" Fixture.caller_later) =
     Ret Fixture.good_claims) /\
  Fixture.good_claims = Fixture.good_claims.
Proof.
  split; [repeat split; try reflexivity; discriminate|].
  exact (verify_decode_jwt_idempotent Fixture.lib "tok.good"
           Fixture.caller Fixture.caller_later _ _
           fixture_clock_only_gates eq_refl eq_refl eq_refl).
Defined.

(** ** The gate *)


(** The wrapper, step by step. *)
Lemma requires_auth_run (lib : pylib) {Args R : Type} (permission : option string)
    (f : dict -> Args -> M R) (args : Args) (w : world) :
  requires_auth lib permission f args w =
    match get_token_auth_header (current_request w) with
    | Raise e => ([], Raise e)
    | Ret token =>
        match result (verify_decode_jwt lib token w) with
        | Raise e => ([HttpGet jwks_url], Raise e)
        | Ret payload =>
            match check_permissions (permission_or_default permission) payload with
            | Raise e => ([HttpGet jwks_url], Raise e)
            | Ret _ => (HttpGet jwks_url :: events (f payload args w),
                        result (f payload args w))
            end
        end
    end.
Proof.
  unfold requires_auth, bind, ask_request, lift.
  destruct (get_token_auth_header (current_request w)) as [token|e]; [|reflexivity].
  pose proof (verify_decode_jwt_events lib token w) as Hev.
  unfold events, result in *.
  destruct (verify_decode_jwt lib token w) as [tr [payload|e]]; cbn [fst snd] in *;
    subst tr; [|reflexivity].
  destruct (check_permissions (permission_or_default permission) payload) as [b|e];
    [|reflexivity].
  destruct (f payload args w) as [t r]. reflexivity.
Qed.


(** The gate on one token: the operation runs for a permission the token
    has, and leaves no trace for one it lacks. *)
Example requires_auth_end_to_end :
  let w := Fixture.world_of Fixture.online 100 (Some "Bearer tok.good") in
  requires_auth Fixture.lib (Some "post:drink") Fixture.post_drink "mojito" w =
    ([HttpGet jwks_url; Effect "store mojito"], Ret (JStr issuer)) /\
  requires_auth Fixture.lib (Some "delete:drink") Fixture.post_drink "mojito" w =
    ([HttpGet jwks_url], Raise unauthorized_permission) /\
  requires_auth Fixture.lib (Some "post:drink") Fixture.post_drink "mojito"
    Fixture.anonymous =
    ([], Raise (invalid_header "Authorization header is missing.")).
Proof. repeat split; reflexivity. Qed.

(** C10: the required permission defaults to the empty string, and a gate
    built with the default refuses, with [unauthorized_permission] and
    status 401, every verified claim set whose permissions do not contain
    the empty string itself. *)
Theorem requires_auth_default_permission (lib : pylib) {Args R : Type}
    (f : dict -> Args -> M R) (args : Args) (w : world)
    (token : string) (payload : dict) (items : list json) :
  get_token_auth_header (current_request w) = Ret token ->
  result (verify_decode_jwt lib token w) = Ret payload ->
  dict_get payload "permissions" = Some (JArr items) ->
  ~ In (JStr "") items ->
  permission_or_default None = "" /\
  requires_auth lib None f args w =
    ([HttpGet jwks_url],
     Raise (AuthError {| code := "unauthorized_permission";
                         description := " Permission string not in the payload permissions array" |}
                      401)).
Proof.
  intros Htoken Hverify Hitems Hnot. split; [reflexivity|].
  rewrite requires_auth_run, Htoken, Hverify.
  rewrite (check_permissions_list _ _ _ Hitems).
  destruct (existsb (py_eq (JStr (permission_or_default None))) items) eqn:Hex.
  - apply str_in_list in Hex. contradiction.
  - reflexivity.
Qed.

Lemma requires_auth_default_permission_witness :
  (get_token_auth_header (current_request Fixture.caller) = Ret "tok.good" /\
   result (verify_decode_jwt Fixture.lib "tok.good" Fixture.caller) =
     Ret Fixture.good_claims /\
   dict_get Fixture.good_claims "permissions" =
     Some (JArr [JStr "get:drink"; JStr "post:drink"])) /\
  permission_or_default None = "" /\
  requires_auth Fixture.lib None Fixture.post_drink "mojito" Fixture.caller =
    ([HttpGet jwks_url], Raise unauthorized_permission).
Proof.
  split; [repeat split; reflexivity|].
  refine (requires_auth_default_permission Fixture.lib Fixture.post_drink "mojito"
            Fixture.caller "tok.good" Fixture.good_claims
            [JStr "get:drink"; JStr "post:drink"]
            eq_refl eq_refl eq_refl _).
  simpl. intros [H|[H|[]]]; discriminate H.
Defined.

(** * Further properties *)

(** ** Cutting and spelling the header *)

Lemma split_one (sep : ascii) (s b : string) :
  split sep s = [b] -> s = b /\ occurs sep b = false.
Proof.
  revert b. induction s as [|c s IH]; intros b; cbn [split].
  - intros [= <-]. split; reflexivity.
  - destruct (Ascii.eqb c sep) eqn:Hc.
    + intros [= _ H]. exfalso. exact (split_not_nil _ _ H).
    + destruct (split sep s) as [|p ps] eqn:Hs; [intros [= <-]|].
      * exfalso. exact (split_not_nil _ _ Hs).
      * intros [= <- ->]. destruct (IH p eq_refl) as [-> Hp].
        split; [reflexivity|]. cbn [occurs]. now rewrite Hc, Hp.
Qed.

Lemma split_two (sep : ascii) (s a b : string) :
  split sep s = [a; b] ->
  s = (a ++ String sep b)%string /\ occurs sep a = false /\ occurs sep b = false.
Proof.
  revert a. induction s as [|c s IH]; intros a; cbn [split].
  - discriminate.
  - destruct (Ascii.eqb c sep) eqn:Hc.
    + intros [= <- H]. apply Ascii.eqb_eq in Hc. subst c.
      destruct (split_one _ _ _ H) as [-> Hb]. repeat split; trivial.
    + destruct (split sep s) as [|p ps] eqn:Hs.
      * discriminate.
      * intros [= <- ->]. destruct (IH p eq_refl) as (-> & Hp & Hb).
        repeat split; trivial. cbn [occurs]. now rewrite Hc, Hp.
Qed.

Lemma split_no_sep (sep : ascii) (b : string) :
  occurs sep b = false -> split sep b = [b].
Proof.
  induction b as [|c b IH]; cbn [occurs split]; [reflexivity|].
  intros H. apply orb_false_iff in H. destruct H as [Hc Hb].
  now rewrite Hc, (IH Hb).
Qed.

Lemma split_app (sep : ascii) (a b : string) :
  occurs sep a = false ->
  split sep (a ++ String sep b)%string = a :: split sep b.
Proof.
  induction a as [|c a IH]; cbn [occurs append split].
  - intros _. now rewrite Ascii.eqb_refl.
  - intros H. apply orb_false_iff in H. destruct H as [Hc Ha].
    now rewrite Hc, (IH Ha).
Qed.

Lemma lower_char_space (c : ascii) :
  Ascii.eqb (lower_char c) " " = Ascii.eqb c " ".
Proof. destruct c as [[] [] [] [] [] [] [] []]; reflexivity. Qed.

Lemma occurs_space_lower (s : string) : occurs " " (lower s) = occurs " " s.
Proof.
  induction s as [|c s IH]; [reflexivity|].
  cbn [lower occurs]. now rewrite lower_char_space, IH.
Qed.

Lemma bearer_no_space (scheme : string) :
  lower scheme = "bearer" -> occurs " " scheme = false.
Proof. intros H. rewrite <- occurs_space_lower, H. reflexivity. Qed.

Lemma get_token_auth_header_accepts (scheme token : string) :
  lower scheme = "bearer" ->
  occurs " " token = false ->
  get_token_auth_header {| Authorization := Some (scheme ++ String " " token)%string |} =
    Ret token.
Proof.
  intros Hscheme Htoken.
  assert (Hshape : bearer_shape (split " ")
                     {| Authorization := Some (scheme ++ String " " token)%string |} token).
  { exists (scheme ++ String " " token)%string, scheme. repeat split; trivial.
    rewrite (split_app _ _ _ (bearer_no_space _ Hscheme)).
    now rewrite (split_no_sep _ _ Htoken). }
  destruct (get_token_auth_header_cases
              {| Authorization := Some (scheme ++ String " " token)%string |})
    as [(t & Ht & Hs)|(d & _ & Hn)].
  - rewrite Ht. f_equal. exact (bearer_shape_functional _ _ _ _ Hs Hshape).
  - exfalso. exact (Hn token Hshape).
Qed.

(** X1: extraction undoes the assembling of a header. It returns [token]
    exactly when the header is a scheme that lowers to [bearer], one space,
    and [token], and [token] has no space in it. *)
Theorem get_token_auth_header_round_trip (req : request) (token : string) :
  get_token_auth_header req = Ret token <->
  exists scheme,
    Authorization req = Some (scheme ++ String " " token)%string /\
    lower scheme = "bearer" /\
    occurs " " token = false.
Proof.
  split.
  - intros Hret.
    destruct (get_token_auth_header_cases req) as [(t & Ht & Hs)|(d & Hd & _)].
    + rewrite Hret in Ht. injection Ht as <-.
      destruct Hs as (h & scheme & Hh & Hparts & Hlow).
      destruct (split_two _ _ _ _ Hparts) as (-> & _ & Htok).
      now exists scheme.
    + rewrite Hret in Hd. discriminate.
  - intros (scheme & Hh & Hlow & Htok).
    destruct req as [h]. cbn [Authorization] in Hh. subst h.
    now apply get_token_auth_header_accepts.
Qed.

Lemma length_append (a b : string) :
  String.length (a ++ b) = String.length a + String.length b.
Proof. induction a as [|c a IH]; cbn; [reflexivity | now rewrite IH]. Qed.

Lemma append_inv_tail (a b x : string) : (a ++ x)%string = (b ++ x)%string -> a = b.
Proof.
  revert b. induction a as [|c a IH]; intros [|c' b] H; cbn in H.
  - reflexivity.
  - apply (f_equal String.length) in H. cbn in H. rewrite length_append in H. lia.
  - apply (f_equal String.length) in H. cbn in H. rewrite length_append in H. lia.
  - injection H as -> H. f_equal. exact (IH b H).
Qed.

Ltac every_char c := destruct c as [[] [] [] [] [] [] [] []]; reflexivity.

Lemma lower_char_b (c : ascii) :
  Ascii.eqb (lower_char c) "b" = Ascii.eqb c "b" || Ascii.eqb c (upper_char "b").
Proof. every_char c. Qed.

Lemma lower_char_e (c : ascii) :
  Ascii.eqb (lower_char c) "e" = Ascii.eqb c "e" || Ascii.eqb c (upper_char "e").
Proof. every_char c. Qed.

Lemma lower_char_a (c : ascii) :
  Ascii.eqb (lower_char c) "a" = Ascii.eqb c "a" || Ascii.eqb c (upper_char "a").
Proof. every_char c. Qed.

Lemma lower_char_r (c : ascii) :
  Ascii.eqb (lower_char c) "r" = Ascii.eqb c "r" || Ascii.eqb c (upper_char "r").
Proof. every_char c. Qed.

Lemma lower_spells_bearer (s : string) :
  (lower s =? "bearer")%string = spells "bearer" s.
Proof.
  destruct s as [|c1 [|c2 [|c3 [|c4 [|c5 [|c6 [|c7 s]]]]]]];
    cbn [lower String.eqb spells];
    rewrite ?lower_char_b, ?lower_char_e, ?lower_char_a, ?lower_char_r;
    repeat match goal with
           | |- context [Ascii.eqb ?c ?l || Ascii.eqb ?c ?u] =>
               destruct (Ascii.eqb c l || Ascii.eqb c u); cbn [andb]
           end;
    reflexivity.
Qed.

(** X2: the scheme is matched without regard to ASCII case and to nothing
    else. A header made of [scheme], one space and a token without space is
    accepted exactly when [scheme] spells [bearer], each letter in either
    ASCII case; no other character passes for a letter. *)
Theorem get_token_auth_header_scheme (scheme token : string) :
  occurs " " token = false ->
  (get_token_auth_header {| Authorization := Some (scheme ++ String " " token)%string |} =
     Ret token <->
   spells "bearer" scheme = true).
Proof.
  intros Htoken. rewrite <- lower_spells_bearer, String.eqb_eq. split.
  - intros Hret.
    destruct (get_token_auth_header_cases
                {| Authorization := Some (scheme ++ String " " token)%string |})
      as [(t & Ht & Hs)|(d & Hd & _)].
    + rewrite Hret in Ht. injection Ht as <-.
      destruct Hs as (h & scheme' & Hh & Hparts & Hlow).
      cbn [Authorization] in Hh. injection Hh as <-.
      destruct (split_two _ _ _ _ Hparts) as (Heq & _ & _).
      apply append_inv_tail in Heq. now subst scheme'.
    + rewrite Hret in Hd. discriminate.
  - intros Hlow. now apply get_token_auth_header_accepts.
Qed.

Lemma get_token_auth_header_scheme_witness :
  occurs " " "tok.good" = false /\
  (get_token_auth_header {| Authorization := Some "bEaReR tok.good" |} = Ret "tok.good" <->
   spells "bearer" "bEaReR" = true).
Proof.
  split; [reflexivity|].
  exact (get_token_auth_header_scheme "bEaReR" "tok.good" eq_refl).
Defined.

(** ** More on the permission check *)

(** X3: the permissions array counts as a set, and nothing else in the
    payload counts at all: two payloads whose arrays have the same elements,
    in whatever order and number, get the same answer. *)
Theorem check_permissions_same_elements (permission : string)
    (payload payload' : dict) (items items' : list json) :
  dict_get payload "permissions" = Some (JArr items) ->
  dict_get payload' "permissions" = Some (JArr items') ->
  (forall x, In x items <-> In x items') ->
  check_permissions permission payload = check_permissions permission payload'.
Proof.
  intros H H' Hsame.
  rewrite (check_permissions_list _ _ _ H), (check_permissions_list _ _ _ H').
  assert (Heq : existsb (py_eq (JStr permission)) items =
                existsb (py_eq (JStr permission)) items').
  { apply eq_true_iff_eq. rewrite !str_in_list. apply Hsame. }
  now rewrite Heq.
Qed.

Lemma check_permissions_same_elements_witness :
  check_permissions "post:drink"
    [("permissions", JArr [JStr "get:drink"; JStr "post:drink"])] =
  check_permissions "post:drink"
    [("sub", JStr "auth0|1");
     ("permissions", JArr [JStr "post:drink"; JStr "get:drink"; JStr "post:drink"])].
Proof.
  refine (check_permissions_same_elements "post:drink"
            [("permissions", JArr [JStr "get:drink"; JStr "post:drink"])]
            [("sub", JStr "auth0|1");
             ("permissions", JArr [JStr "post:drink"; JStr "get:drink"; JStr "post:drink"])]
            [JStr "get:drink"; JStr "post:drink"]
            [JStr "post:drink"; JStr "get:drink"; JStr "post:drink"]
            eq_refl eq_refl _).
  intros x. simpl. tauto.
Defined.

Lemma prefix_app (p s : string) :
  String.prefix p s = true <-> exists b, s = (p ++ b)%string.
Proof.
  revert s. induction p as [|c p IH]; intros s.
  - destruct s; cbn; (split; [intros _; eexists; reflexivity | reflexivity]).
  - destruct s as [|c' s]; cbn.
    + split; [discriminate | intros (b & Hb); discriminate].
    + destruct (ascii_dec c c') as [->|Hne].
      * rewrite IH. split; intros (b & Hb); exists b; [now subst | now injection Hb].
      * split; [discriminate|]. intros (b & Hb). injection Hb as Hc _.
        congruence.
Qed.

Lemma str_contains_spec (needle hay : string) :
  str_contains needle hay = true <-> exists a b, hay = (a ++ needle ++ b)%string.
Proof.
  induction hay as [|c hay IH]; cbn [str_contains]; rewrite orb_true_iff, prefix_app.
  - split.
    + intros [(b & Hb)|H]; [|discriminate]. exists "", b. exact Hb.
    + intros (a & b & H). left. destruct a; [|discriminate]. now exists b.
  - rewrite IH. split.
    + intros [(b & Hb)|(a & b & H)].
      * exists "", b. exact Hb.
      * exists (String c a), b. cbn. now rewrite H.
    + intros (a & b & H). destruct a as [|c' a].
      * left. now exists b.
      * right. cbn in H. injection H as _ H. now exists a, b.
Qed.

(** X4: when the permissions claim is one string and not an array, the
    check looks for the required permission inside that string: it passes
    exactly when the permission occurs in it as a substring, and fails with
    [unauthorized_permission] otherwise. *)
Theorem check_permissions_string_entry (permission : string) (payload : dict)
    (s : string) :
  dict_get payload "permissions" = Some (JStr s) ->
  (check_permissions permission payload = Ret true <->
   exists a b, s = (a ++ permission ++ b)%string) /\
  (check_permissions permission payload = Ret true \/
   check_permissions permission payload = Raise unauthorized_permission).
Proof.
  intros H. rewrite <- str_contains_spec.
  unfold check_permissions, dict_mem, dict_getitem. rewrite H.
  cbn [negb obind py_in].
  destruct (str_contains permission s); cbn [negb]; split.
  - split; reflexivity.
  - now left.
  - split; discriminate.
  - now right.
Qed.

Lemma check_permissions_string_entry_witness :
  (check_permissions "post:drink" [("permissions", JStr "get:drink post:drinks")] =
     Ret true <->
   exists a b, "get:drink post:drinks" = (a ++ "post:drink" ++ b)%string) /\
  (check_permissions "post:drink" [("permissions", JStr "get:drink post:drinks")] =
     Ret true \/
   check_permissions "post:drink" [("permissions", JStr "get:drink post:drinks")] =
     Raise unauthorized_permission).
Proof.
  exact (check_permissions_string_entry "post:drink"
           [("permissions", JStr "get:drink post:drinks")]
           "get:drink post:drinks" eq_refl).
Defined.

(** ** More on key resolution *)

Lemma dict_getitem_Ret (d : dict) (k : string) (v : json) :
  dict_getitem d k = Ret v -> dict_get d k = Some v.
Proof. unfold dict_getitem. destruct (dict_get d k); [now intros [= ->] | discriminate]. Qed.

(** What the loop hands back is the value it started with or a key it has
    just built. *)
Lemma get_rsa_loop_shape (unverified_header : dict) (keys : list json) (rsa0 rsa : dict) :
  get_rsa_loop unverified_header keys rsa0 = Ret rsa ->
  rsa = rsa0 \/
  (dict_keys rsa = jwk_members /\
   exists wanted kid,
     dict_get unverified_header "kid" = Some wanted /\
     dict_get rsa "kid" = Some kid /\
     py_eq kid wanted = true).
Proof.
  induction keys as [|key keys IH]; cbn [get_rsa_loop].
  - intros [= <-]. now left.
  - destruct (py_getitem key "kid") as [kid|e]; cbn [obind]; [|discriminate].
    destruct (dict_getitem unverified_header "kid") as [wanted|e] eqn:Hwanted;
      cbn [obind]; [|discriminate].
    destruct (py_eq kid wanted) eqn:Heq; [|exact IH].
    destruct (py_getitem key "kty") as [kty|e]; cbn [obind]; [|discriminate].
    destruct (py_getitem key "use") as [use|e]; cbn [obind]; [|discriminate].
    destruct (py_getitem key "n") as [n|e]; cbn [obind]; [|discriminate].
    destruct (py_getitem key "e") as [e'|e]; cbn [obind]; [|discriminate].
    intros [= <-]. right. split; [reflexivity|].
    exists wanted, kid. repeat split; trivial.
    now apply dict_getitem_Ret.
Qed.

(** X5: whatever the key-set document looks like, a key that [get_rsa]
    returns has exactly the members [kty], [kid], [use], [n], [e], in this
    order, and its [kid] equals the key identifier of the token's header. *)
Theorem get_rsa_returns_matching_key (lib : pylib) (token : string) (w : world)
    (rsa : dict) :
  result (get_rsa lib token w) = Ret rsa ->
  dict_keys rsa = ["kty"; "kid"; "use"; "n"; "e"] /\
  exists unverified_header wanted kid,
    jwt_get_unverified_header lib token = Ret unverified_header /\
    dict_get unverified_header "kid" = Some wanted /\
    dict_get rsa "kid" = Some kid /\
    py_eq kid wanted = true.
Proof.
  rewrite get_rsa_run. unfold result. cbn [snd].
  destruct (urlopen w jwks_url) as [body|e]; cbn [obind]; [|discriminate].
  destruct (json_loads lib body) as [jwks|e]; cbn [obind]; [|discriminate].
  destruct (jwt_get_unverified_header lib token) as [header|e]; cbn [obind];
    [|discriminate].
  destruct (negb (dict_mem "kid" header)); [discriminate|].
  destruct (py_getitem jwks "keys") as [keys|e]; cbn [obind]; [|discriminate].
  destruct (py_iter keys) as [items|e]; cbn [obind]; [|discriminate].
  destruct (get_rsa_loop header items []) as [rsa'|e] eqn:Hloop; cbn [obind];
    [|discriminate].
  destruct (dict_is_empty rsa') eqn:Hempty; [discriminate|].
  intros [= <-].
  destruct (get_rsa_loop_shape _ _ _ _ Hloop) as [->|(Hkeys & wanted & kid & H1 & H2 & H3)].
  - discriminate Hempty.
  - split; [exact Hkeys|]. now exists header, wanted, kid.
Qed.

Lemma get_rsa_returns_matching_key_witness :
  result (get_rsa Fixture.lib "tok.good" Fixture.anonymous) =
    Ret (signing_key Fixture.key_b) /\
  dict_keys (signing_key Fixture.key_b) = ["kty"; "kid"; "use"; "n"; "e"] /\
  exists unverified_header wanted kid,
    jwt_get_unverified_header Fixture.lib "tok.good" = Ret unverified_header /\
    dict_get unverified_header "kid" = Some wanted /\
    dict_get (signing_key Fixture.key_b) "kid" = Some kid /\
    py_eq kid wanted = true.
Proof.
  split; [reflexivity|].
  exact (get_rsa_returns_matching_key Fixture.lib "tok.good" Fixture.anonymous
           (signing_key Fixture.key_b) eq_refl).
Defined.

(** X6: the loop stops at the first entry that matches: what comes after
    that entry in the key set, well formed or not, has no influence on the
    result. *)
Theorem get_rsa_loop_stops_at_match (unverified_header : dict) (wanted : json)
    (pre : list json) (key : json) (post post' : list json) (rsa : dict) :
  dict_get unverified_header "kid" = Some wanted ->
  key_matches wanted key = true ->
  get_rsa_loop unverified_header (pre ++ key :: post) rsa =
  get_rsa_loop unverified_header (pre ++ key :: post') rsa.
Proof.
  intros Hwanted Hmatch. induction pre as [|x pre IH]; cbn [app get_rsa_loop].
  - unfold key_matches in Hmatch. unfold dict_getitem. rewrite Hwanted.
    destruct (py_getitem key "kid") as [kid|e]; [|discriminate Hmatch].
    cbn [obind]. now rewrite Hmatch.
  - destruct (py_getitem x "kid") as [kid|e]; cbn [obind]; [|reflexivity].
    destruct (dict_getitem unverified_header "kid") as [v|e]; cbn [obind];
      [|reflexivity].
    destruct (py_eq kid v); [reflexivity | exact IH].
Qed.

Lemma get_rsa_loop_stops_at_match_witness :
  get_rsa_loop [("kid", JStr "key-a")] ([] ++ Fixture.key_a :: [Fixture.key_b]) [] =
  get_rsa_loop [("kid", JStr "key-a")] ([] ++ Fixture.key_a :: [JNull; JStr "x"]) [].
Proof.
  exact (get_rsa_loop_stops_at_match [("kid", JStr "key-a")] (JStr "key-a")
           [] Fixture.key_a [Fixture.key_b] [JNull; JStr "x"] [] eq_refl eq_refl).
Defined.

(** X7: the entries ahead of the match are all inspected: when the key set
    holds, after entries with other key identifiers, an entry whose [kid]
    cannot be read (a dict without that member raises [KeyError], a value
    that is no dict raises [TypeError]), the loop ends with that exception,
    whatever follows. *)
Theorem get_rsa_loop_unreadable_entry (unverified_header : dict) (wanted : json)
    (pre : list json) (bad : json) (post : list json) (rsa : dict) (e : exn) :
  dict_get unverified_header "kid" = Some wanted ->
  Forall (fun key => exists kid, py_getitem key "kid" = Ret kid /\
                                 py_eq kid wanted = false) pre ->
  py_getitem bad "kid" = Raise e ->
  get_rsa_loop unverified_header (pre ++ bad :: post) rsa = Raise e.
Proof.
  intros Hwanted Hpre Hbad.
  induction Hpre as [|x pre (kid & Hkid & Hne) _ IH]; cbn [app get_rsa_loop].
  - now rewrite Hbad.
  - rewrite Hkid. cbn [obind]. unfold dict_getitem at 1. rewrite Hwanted.
    cbn [obind]. rewrite Hne. exact IH.
Qed.

Lemma get_rsa_loop_unreadable_entry_witness :
  get_rsa_loop [("kid", JStr "key-b")]
    ([Fixture.key_a] ++ JObj [("kty", JStr "RSA")] :: [Fixture.key_b]) [] =
    Raise (KeyError "kid").
Proof.
  refine (get_rsa_loop_unreadable_entry [("kid", JStr "key-b")] (JStr "key-b")
            [Fixture.key_a] (JObj [("kty", JStr "RSA")]) [Fixture.key_b] []
            (KeyError "kid") eq_refl _ eq_refl).
  repeat constructor. exists (JStr "key-a"). split; reflexivity.
Defined.

(** ** More on verification and on the gate *)

(** X8: a failure of key resolution is not one of the mapped failures: it
    leaves [verify_decode_jwt], and the gate, as the exception it is. So a
    token whose header the library cannot read surfaces as the library's
    own exception and not as [invalid_token]. *)
Theorem key_resolution_failure_escapes (lib : pylib) {Args R : Type}
    (permission : option string) (f : dict -> Args -> M R) (args : Args)
    (w : world) (token : string) (e : exn) :
  get_token_auth_header (current_request w) = Ret token ->
  result (get_rsa lib token w) = Raise e ->
  result (verify_decode_jwt lib token w) = Raise e /\
  requires_auth lib permission f args w = ([HttpGet jwks_url], Raise e).
Proof.
  intros Htoken Hrsa.
  assert (Hverify : result (verify_decode_jwt lib token w) = Raise e).
  { rewrite verify_decode_jwt_run. unfold result at 1. cbn [snd].
    now rewrite Hrsa. }
  split; [exact Hverify|].
  now rewrite requires_auth_run, Htoken, Hverify.
Qed.

Lemma key_resolution_failure_escapes_witness :
  result (verify_decode_jwt Fixture.lib "garbage"
            (Fixture.world_of Fixture.online 100 (Some "Bearer garbage"))) =
    Raise JWTError /\
  requires_auth Fixture.lib (Some "post:drink") Fixture.post_drink "mojito"
    (Fixture.world_of Fixture.online 100 (Some "Bearer garbage")) =
    ([HttpGet jwks_url], Raise JWTError).
Proof.
  exact (key_resolution_failure_escapes Fixture.lib (Some "post:drink")
           Fixture.post_drink "mojito"
           (Fixture.world_of Fixture.online 100 (Some "Bearer garbage"))
           "garbage" JWTError eq_refl eq_refl).
Defined.

(** X9: verification succeeds exactly when key resolution yields a key and
    [jwt.decode], called with that key, the single algorithm [RS256], the
    audience [stock] and the issuer [https://dev-eid5kfny.us.auth0.com/],
    returns a payload; the payload comes back as [jwt.decode] returned
    it. *)
Theorem verify_decode_jwt_success (lib : pylib) (token : string) (w : world)
    (payload : dict) :
  result (verify_decode_jwt lib token w) = Ret payload <->
  exists rsa,
    result (get_rsa lib token w) = Ret rsa /\
    jwt_decode lib (now w) token rsa ["RS256"] "stock"
      "https://dev-eid5kfny.us.auth0.com/" = Ret payload.
Proof.
  rewrite verify_decode_jwt_run. unfold result at 1. cbn [snd]. split.
  - destruct (result (get_rsa lib token w)) as [rsa|e]; cbn [obind]; [|discriminate].
    intros H. exists rsa. split; [reflexivity|]. exact (decode_or_fail_Ret _ _ _ _ _ H).
  - intros (rsa & -> & H). cbn [obind]. unfold decode_or_fail, try_.
    change (jwt_decode lib (now w) token rsa ALGORITHMS API_AUDIENCE issuer = Ret payload) in H.
    now rewrite H.
Qed.

(** X10: the gate goes to the network only for a request that carries a
    well-formed bearer header. When header extraction fails nothing is sent
    and the failure comes back at once; otherwise exactly one request, the
    GET of the key set, comes first, and whatever else happens is the
    protected operation's doing. *)
Theorem requires_auth_network_use (lib : pylib) {Args R : Type}
    (permission : option string) (f : dict -> Args -> M R) (args : Args) (w : world) :
  (forall e, get_token_auth_header (current_request w) = Raise e ->
             requires_auth lib permission f args w = ([], Raise e)) /\
  (forall token, get_token_auth_header (current_request w) = Ret token ->
     exists rest,
       events (requires_auth lib permission f args w) = HttpGet jwks_url :: rest /\
       (rest = [] \/ exists payload, rest = events (f payload args w))).
Proof.
  split.
  - intros e He. now rewrite requires_auth_run, He.
  - intros token Htoken. rewrite requires_auth_run, Htoken.
    destruct (result (verify_decode_jwt lib token w)) as [payload|e].
    + destruct (check_permissions (permission_or_default permission) payload).
      * exists (events (f payload args w)). split; [reflexivity|]. right. now exists payload.
      * exists []. split; [reflexivity | now left].
    + exists []. split; [reflexivity | now left].
Qed.

(** X11: verification reads of the world the answer to the GET of the key
    set and the clock, and nothing more: two worlds that agree on these
    give the same run, whatever their requests and whatever the network
    would answer elsewhere. *)
Theorem verify_decode_jwt_frame (lib : pylib) (token : string) (w1 w2 : world) :
  urlopen w1 jwks_url = urlopen w2 jwks_url ->
  now w1 = now w2 ->
  verify_decode_jwt lib token w1 = verify_decode_jwt lib token w2.
Proof.
  intros Hnet Hnow.
  now rewrite !verify_decode_jwt_run, (get_rsa_same_key_set lib token w1 w2 Hnet), Hnow.
Qed.

Lemma verify_decode_jwt_frame_witness :
  verify_decode_jwt Fixture.lib "tok.good" Fixture.anonymous =
  verify_decode_jwt Fixture.lib "tok.good"
    {| current_request := {| Authorization := Some "Basic dXNlcjpwdw==" |};
       urlopen := fun url => if (url =? jwks_url)%string then Ret Fixture.jwks_body
                             else Ret "I'm a teapot";
       now := 100 |}.
Proof.
  exact (verify_decode_jwt_frame Fixture.lib "tok.good" Fixture.anonymous
           {| current_request := {| Authorization := Some "Basic dXNlcjpwdw==" |};
              urlopen := fun url => if (url =? jwks_url)%string then Ret Fixture.jwks_body
                                    else Ret "I'm a teapot";
              now := 100 |}
           eq_refl eq_refl).
Defined.

(** *** The failures of the gate *)

Lemma dict_getitem_no_AuthError (d : dict) (k : string) :
  raises_no_AuthError (dict_getitem d k).
Proof. unfold dict_getitem. destruct (dict_get d k); exact I || reflexivity. Qed.

Lemma py_getitem_no_AuthError (v : json) (k : string) :
  raises_no_AuthError (py_getitem v k).
Proof.
  destruct v; cbn [py_getitem]; try reflexivity. apply dict_getitem_no_AuthError.
Qed.

Lemma py_iter_no_AuthError (v : json) : raises_no_AuthError (py_iter v).
Proof. destruct v; cbn; exact I || reflexivity. Qed.

Lemma obind_no_AuthError {A B} (o : outcome A) (k : A -> outcome B) :
  raises_no_AuthError o ->
  (forall a, raises_no_AuthError (k a)) ->
  raises_no_AuthError (obind o k).
Proof. intros Ho Hk. destruct o as [a|e]; cbn; [apply Hk | exact Ho]. Qed.

Lemma get_rsa_loop_no_AuthError (unverified_header : dict) (keys : list json) (rsa : dict) :
  raises_no_AuthError (get_rsa_loop unverified_header keys rsa).
Proof.
  induction keys as [|key keys IH]; cbn [get_rsa_loop]; [exact I|].
  apply obind_no_AuthError; [apply py_getitem_no_AuthError|]. intros kid.
  apply obind_no_AuthError; [apply dict_getitem_no_AuthError|]. intros wanted.
  destruct (py_eq kid wanted); [|exact IH].
  repeat (apply obind_no_AuthError; [apply py_getitem_no_AuthError|]; intros ?).
  exact I.
Qed.

Lemma raises_no_AuthError_Raise {A} (o : outcome A) (error : auth_error) (status : Z) :
  raises_no_AuthError o -> o <> Raise (AuthError error status).
Proof. intros H ->. discriminate H. Qed.

(** Key resolution itself raises no [AuthError] but [invalid_header]. *)
Lemma get_rsa_AuthError (lib : pylib) (token : string) (w : world)
    (error : auth_error) (status : Z) :
  outside_raises_no_AuthError lib w ->
  result (get_rsa lib token w) = Raise (AuthError error status) ->
  code error = "invalid_header" /\ status = 401%Z.
Proof.
  intros (Hnet & Hjson & Hheader). rewrite get_rsa_run. unfold result. cbn [snd].
  pose proof (Hnet jwks_url) as H1.
  destruct (urlopen w jwks_url) as [body|e]; cbn [obind];
    [|intros [= ->]; discriminate H1].
  pose proof (Hjson body) as H2.
  destruct (json_loads lib body) as [jwks|e]; cbn [obind];
    [|intros [= ->]; discriminate H2].
  pose proof (Hheader token) as H3.
  destruct (jwt_get_unverified_header lib token) as [header|e]; cbn [obind];
    [|intros [= ->]; discriminate H3].
  destruct (negb (dict_mem "kid" header)); [intros [= <- <-]; now split|].
  pose proof (py_getitem_no_AuthError jwks "keys") as H4.
  destruct (py_getitem jwks "keys") as [keys|e]; cbn [obind];
    [|intros [= ->]; discriminate H4].
  pose proof (py_iter_no_AuthError keys) as H5.
  destruct (py_iter keys) as [items|e]; cbn [obind];
    [|intros [= ->]; discriminate H5].
  pose proof (get_rsa_loop_no_AuthError header items []) as H6.
  destruct (get_rsa_loop header items []) as [rsa|e]; cbn [obind];
    [|intros [= ->]; discriminate H6].
  destruct (dict_is_empty rsa); [intros [= <- <-]; now split | discriminate].
Qed.

Lemma decode_or_fail_AuthError (lib : pylib) (t : Z) (token : string) (rsa : dict)
    (e : exn) :
  decode_or_fail lib t token rsa = Raise e ->
  e = token_expired \/ e = invalid_claims \/ e = invalid_token.
Proof.
  unfold decode_or_fail, try_.
  destruct (jwt_decode lib t token rsa ALGORITHMS API_AUDIENCE issuer) as [p|e'];
    cbn [obind]; [discriminate|].
  destruct e'; cbn; intros [= <-]; auto.
Qed.

Lemma check_permissions_AuthError (permission : string) (payload : dict) (e : exn) :
  check_permissions permission payload = Raise e ->
  e = invalid_permission \/ e = unauthorized_permission \/ e = TypeError.
Proof.
  unfold check_permissions.
  destruct (negb (dict_mem "permissions" payload)) eqn:Hmem; [intros [= <-]; auto|].
  unfold dict_getitem, dict_mem in *.
  destruct (dict_get payload "permissions") as [v|]; [|discriminate Hmem].
  cbn [obind]. destruct v; cbn [py_in obind]; try (intros [= <-]; auto);
    match goal with
    | |- context [negb ?b] => destruct b; cbn [negb]; [discriminate | intros [= <-]; auto]
    end.
Qed.

(** X12: provided the network and the libraries raise no [AuthError] of
    their own, every [AuthError] with which header extraction, verification
    or the permission check stops the gate carries one of the six codes of
    the module, with the status that goes with it: 401 for
    [invalid_header], [token_expired], [invalid_claims] and
    [unauthorized_permission], 400 for [invalid_token] and
    [invalid_permission]. *)
Theorem gate_failures_are_classified (lib : pylib) (required : string) (w : world)
    (error : auth_error) (status : Z) :
  outside_raises_no_AuthError lib w ->
  first_failure lib required w (AuthError error status) ->
  In (code error, status) auth_error_table.
Proof.
  intros Hout [Hheader|(token & Htoken & [Hverify|(payload & _ & Hcheck)])].
  - destruct (get_token_auth_header_cases (current_request w))
      as [(t & Ht & _)|(d & Hd & _)]; rewrite Hheader in *.
    + discriminate Ht.
    + injection Hd as -> ->. cbn. auto.
  - rewrite verify_decode_jwt_run in Hverify. unfold result at 1 in Hverify.
    cbn [snd] in Hverify.
    destruct (result (get_rsa lib token w)) as [rsa|e] eqn:Hrsa; cbn [obind] in Hverify.
    + destruct (decode_or_fail_AuthError _ _ _ _ _ Hverify) as [H|[H|H]];
        injection H as -> ->; cbn; auto 7.
    + injection Hverify as ->.
      destruct (get_rsa_AuthError _ _ _ _ _ Hout Hrsa) as [-> ->]. cbn. auto.
  - destruct (check_permissions_AuthError _ _ _ Hcheck) as [H|[H|H]];
      [injection H as -> -> | injection H as -> -> | discriminate H]; cbn; auto 7.
Qed.

Lemma fixture_raises_no_AuthError (w : world) :
  urlopen w = Fixture.online ->
  outside_raises_no_AuthError Fixture.lib w.
Proof.
  intros Hnet. repeat split.
  - intros url. rewrite Hnet. unfold Fixture.online.
    destruct (_ || _); exact I || reflexivity.
  - intros body. cbn. destruct (body =? Fixture.jwks_body)%string; exact I || reflexivity.
  - intros token. cbn. unfold Fixture.unverified_header.
    destruct (dict_get Fixture.tokens token); exact I || reflexivity.
Qed.

Lemma gate_failures_are_classified_witness :
  first_failure Fixture.lib "delete:drink" Fixture.caller unauthorized_permission /\
  In ("unauthorized_permission", 401%Z) auth_error_table.
Proof.
  assert (H : first_failure Fixture.lib "delete:drink" Fixture.caller
                unauthorized_permission).
  { right. exists "tok.good". split; [reflexivity|]. right.
    exists Fixture.good_claims. split; reflexivity. }
  split; [exact H|].
  exact (gate_failures_are_classified Fixture.lib "delete:drink" Fixture.caller
           _ _ (fixture_raises_no_AuthError Fixture.caller eq_refl) H).
Defined.
